(** * Dripster: the chat and rental-request subsystem

    A shallow embedding of
    - the chat migration (tables [conversations], [messages],
      [conversation_participants], their row-level-security policies and
      the two triggers),
    - the rental part of the base migration ([clothing_items], [rentals]),
    - [src/lib/chat.ts] (class [ChatService]),
    - [src/components/RentItemModal.tsx] ([calculatePrice], [handleSubmit]),
    - the callers of the service in [ItemCard] and [ChatModal], and
    - the helpers of [src/lib/supabase.ts] with their callers in
      [AuthForm] and [Dashboard].

    A database is a record of tables, every table a list of rows in
    insertion order.  A request is a function of the session's principal
    and the database; a write answers with an error or with the new
    database. *)

From Stdlib Require Import ZArith List Bool Lia Ascii String Sorting.Sorted Floats.SpecFloat.
From stdpp Require Import base decidable option list sorting gmap strings.

Open Scope string_scope.
Open Scope Z_scope.

(** ** Values *)

(** [uuid] columns hold opaque identifiers; [timestamptz] columns hold
    microseconds since the epoch. *)
Abbreviation uuid := nat (only parsing).
Abbreviation timestamptz := Z (only parsing).

(** A number of JavaScript is a binary64 floating-point number.  A
    [numeric] column holds the number that the client reads from it or
    writes to it: the API hands numbers over as JSON. *)
Abbreviation number := spec_float (only parsing).

(** The number nearest to a whole number; a whole number below 2^53 is
    a number itself. *)
Definition Number_of_Z (z : Z) : number := binary_normalize 53 1024 z 0 false.
Coercion Number_of_Z : Z >-> spec_float.

Definition Number_mul : number -> number -> number := SFmul 53 1024.
Definition Number_div : number -> number -> number := SFdiv 53 1024.
Definition Number_leb : number -> number -> bool := SFleb.

Declare Scope number_scope.
Delimit Scope number_scope with number.
Notation "x * y" := (Number_mul x y) : number_scope.
Notation "x / y" := (Number_div x y) : number_scope.
Notation "x <=? y" := (Number_leb x y) (at level 70, no associativity) : number_scope.

(** [Number.isFinite]. *)
Definition isFinite (x : number) : bool :=
  match x with
  | S754_zero _ | S754_finite _ _ _ => true
  | S754_infinity _ | S754_nan => false
  end.

(** [jsonb] values, as far as the client builds them. *)
#[local] Set Warnings "-register-all".
Inductive json :=
| JNull
| JNum (n : number)
| JStr (s : string)
| JObj (fields : list (string * json)).

(** Lookup of a key in a JSON object. *)
Fixpoint json_fields_get (k : string) (fields : list (string * json)) : option json :=
  match fields with
  | [] => None
  | (k', v) :: rest => if String.eqb k k' then Some v else json_fields_get k rest
  end.

Definition json_get (k : string) (j : json) : option json :=
  match j with
  | JObj fields => json_fields_get k fields
  | _ => None
  end.

(** The text of a message.  The rental request greeting is a template
    literal over locale-formatted dates; its parts are kept apart. *)
Inductive content :=
| Text (s : string)
| RentalRequestText (title start_date end_date : string) (total : number).

(** [CREATE TYPE rental_status AS ENUM (...)]. *)
Inductive rental_status := pending | confirmed | active | completed | cancelled.

(** ** Rows

    A row carries the columns that the requests read or write.  A
    column that every request fills, or leaves to its default, is
    carried without its null. *)

Record clothing_item := mk_clothing_item {
  i_id : uuid;
  i_title : string;
  i_price_per_day : number;
  i_owner_id : uuid
}.

Record rental := mk_rental {
  r_id : uuid;
  r_item_id : uuid;
  r_renter_id : uuid;
  r_owner_id : uuid;
  r_start_date : string;
  r_end_date : string;
  r_total_price : number;
  r_status : rental_status;
  r_created_at : timestamptz
}.

Record conversation := mk_conversation {
  c_id : uuid;
  c_item_id : uuid;
  c_owner_id : uuid;
  c_renter_id : uuid;
  c_rental_id : option uuid;
  c_last_message_at : timestamptz;
  c_created_at : timestamptz;
  c_updated_at : timestamptz
}.

Record message := mk_message {
  m_id : uuid;
  m_conversation_id : uuid;
  m_sender_id : uuid;
  m_content : content;
  m_message_type : string;
  m_metadata : json;
  m_read_by : json;
  m_created_at : timestamptz
}.

(** [last_read_at] stays nullable: the client tests for its absence. *)
Record conversation_participant := mk_conversation_participant {
  p_id : uuid;
  p_conversation_id : uuid;
  p_user_id : uuid;
  p_joined_at : timestamptz;
  p_last_read_at : option timestamptz
}.

(** ** The database *)

Record DB := mk_DB {
  users : list uuid;
  clothing_items : list clothing_item;
  rentals : list rental;
  conversations : list conversation;
  messages : list message;
  conversation_participants : list conversation_participant
}.

Definition empty_DB : DB := mk_DB [] [] [] [] [] [].

Definition set_rentals (l : list rental) (db : DB) : DB :=
  mk_DB (users db) (clothing_items db) l (conversations db) (messages db)
        (conversation_participants db).

Definition set_conversations (l : list conversation) (db : DB) : DB :=
  mk_DB (users db) (clothing_items db) (rentals db) l (messages db)
        (conversation_participants db).

Definition set_messages (l : list message) (db : DB) : DB :=
  mk_DB (users db) (clothing_items db) (rentals db) (conversations db) l
        (conversation_participants db).

Definition set_conversation_participants (l : list conversation_participant) (db : DB) : DB :=
  mk_DB (users db) (clothing_items db) (rentals db) (conversations db) (messages db)
        l.

(** [gen_random_uuid()]: an identifier that no row carries yet. *)
Definition all_ids (db : DB) : list uuid :=
  (i_id <$> clothing_items db) ++ (r_id <$> rentals db) ++ (c_id <$> conversations db)
  ++ (m_id <$> messages db) ++ (p_id <$> conversation_participants db).

Definition gen_random_uuid (db : DB) : uuid := S (max_list (all_ids db)).

(** ** Errors of the storage layer *)

Inductive pg_error :=
| insufficient_privilege            (* 42501: row-level security *)
| unique_violation (name : string)  (* 23505 *)
| foreign_key_violation (name : string) (* 23503 *)
| check_violation (name : string)   (* 23514 *)
| not_null_violation (name : string) (* 23502 *)
| invalid_datetime_format.          (* 22007 *)

Inductive result (A : Type) :=
| Ok (a : A)
| Err (e : pg_error).
Arguments Ok {A} a.
Arguments Err {A} e.

Definition bind {A B} (r : result A) (k : A -> result B) : result B :=
  match r with
  | Ok a => k a
  | Err e => Err e
  end.

Notation "'do' x <- r ; k" := (bind r (fun x => k))
  (at level 10, x name, r at level 100, k at level 200, right associativity).

Definition require (b : bool) (e : pg_error) : result unit :=
  if b then Ok tt else Err e.

(** ** Principals and policies *)

(** Every policy of the migrations is declared [TO authenticated] and
    speaks of [auth.uid()].  A session is an authenticated user, the
    anonymous role (no policy applies, so nothing is allowed), or a role
    that row security does not apply to (the owner of the tables). *)
Inductive principal :=
| Authenticated (uid : uuid)
| Anon
| TableOwner.

Definition policy (p : principal) (expr : uuid -> bool) : bool :=
  match p with
  | Authenticated uid => expr uid
  | Anon => false
  | TableOwner => true
  end.

(** [owner_id = auth.uid() OR renter_id = auth.uid()]. *)
Definition is_owner_or_renter (uid : uuid) (c : conversation) : bool :=
  (c_owner_id c =? uid)%nat || (c_renter_id c =? uid)%nat.

(** [EXISTS (SELECT 1 FROM conversations WHERE id = conversation_id
    AND (owner_id = auth.uid() OR renter_id = auth.uid()))]. *)
Definition in_own_conversation (db : DB) (uid : uuid) (conversation_id : uuid) : bool :=
  existsb (fun c => (c_id c =? conversation_id)%nat && is_owner_or_renter uid c)
          (conversations db).

(** "Users can view their own conversations" (SELECT, USING). *)
Definition conversations_select (p : principal) (c : conversation) : bool :=
  policy p (fun uid => is_owner_or_renter uid c).

(** "Users can create conversations" (INSERT, WITH CHECK). *)
Definition conversations_insert (p : principal) (c : conversation) : bool :=
  policy p (fun uid => is_owner_or_renter uid c).

(** "Participants can update conversations" (UPDATE, USING; with no
    WITH CHECK clause the USING expression also checks the new row). *)
Definition conversations_update (p : principal) (c : conversation) : bool :=
  policy p (fun uid => is_owner_or_renter uid c).

(** "Participants can view messages in their conversations". *)
Definition messages_select (p : principal) (db : DB) (m : message) : bool :=
  policy p (fun uid => in_own_conversation db uid (m_conversation_id m)).

(** "Participants can send messages". *)
Definition messages_insert (p : principal) (db : DB) (m : message) : bool :=
  policy p (fun uid => (uid =? m_sender_id m)%nat
                       && in_own_conversation db uid (m_conversation_id m)).

(** "Senders can update their own messages". *)
Definition messages_update (p : principal) (m : message) : bool :=
  policy p (fun uid => (uid =? m_sender_id m)%nat).

(** "Users can view their participations". *)
Definition participants_select (p : principal) (cp : conversation_participant) : bool :=
  policy p (fun uid => (uid =? p_user_id cp)%nat).

(** "Users can join conversations they're part of". *)
Definition participants_insert (p : principal) (db : DB) (cp : conversation_participant) : bool :=
  policy p (fun uid => (uid =? p_user_id cp)%nat
                       && in_own_conversation db uid (p_conversation_id cp)).

(** "Users can update their own participation". *)
Definition participants_update (p : principal) (cp : conversation_participant) : bool :=
  policy p (fun uid => (uid =? p_user_id cp)%nat).

(** "Users can insert rentals" (declared for every role, so it binds
    the anonymous role too, whose [auth.uid()] is null). *)
Definition rentals_insert (p : principal) (r : rental) : bool :=
  match p with
  | Authenticated uid => (uid =? r_renter_id r)%nat
  | Anon => false
  | TableOwner => true
  end.

(** ** Dates

    [<input type="date">] hands the component the empty string or a
    date string: a year of four or more digits, a month and a day,
    [YYYY-MM-DD], that name a day of the calendar. *)

Definition digit (a : ascii) : option Z :=
  let n := Z.of_nat (nat_of_ascii a) - 48 in
  if (0 <=? n) && (n <=? 9) then Some n else None.

Fixpoint digits (acc : Z) (l : list ascii) : option Z :=
  match l with
  | [] => Some acc
  | a :: rest =>
      match digit a with
      | Some n => digits (10 * acc + n) rest
      | None => None
      end
  end.

Definition is_leap (y : Z) : bool :=
  ((y mod 4 =? 0) && negb (y mod 100 =? 0)) || (y mod 400 =? 0).

Definition days_in_month (y m : Z) : Z :=
  if m =? 2 then (if is_leap y then 29 else 28)
  else if (m =? 4) || (m =? 6) || (m =? 9) || (m =? 11) then 30
  else 31.

(** Days from 1970-01-01 to the civil date [y-m-d]. *)
Definition days_from_civil (y m d : Z) : Z :=
  let y' := if m <=? 2 then y - 1 else y in
  let era := y' / 400 in
  let yoe := y' - era * 400 in
  let mp := (m + 9) mod 12 in
  let doy := (153 * mp + 2) / 5 + d - 1 in
  let doe := yoe * 365 + yoe / 4 - yoe / 100 + doy in
  era * 146097 + doe - 719468.

(** A date string read from its end: the number of digits of its year,
    the year, and the day number. *)
Definition parse_ymd (s : string) : option (nat * Z * Z) :=
  match rev (list_ascii_of_string s) with
  | d2 :: d1 :: s2 :: m2 :: m1 :: s1 :: year =>
      if Ascii.eqb s1 "-" && Ascii.eqb s2 "-" && (4 <=? length year)%nat then
        match digits 0 (rev year), digits 0 [m1; m2], digits 0 [d1; d2] with
        | Some y, Some m, Some d =>
            if (1 <=? m) && (m <=? 12) && (1 <=? d) && (d <=? days_in_month y m)
            then Some (length year, y, days_from_civil y m d)
            else None
        | _, _, _ => None
        end
      else None
  | _ => None
  end.

(** The day number of a [YYYY-MM-DD] string with a year of four digits:
    the date-only form of the date-time string format of JavaScript,
    which [Date.parse] reads as midnight UTC of that day. *)
Definition parse_date (s : string) : option Z :=
  match parse_ymd s with
  | Some (4%nat, _, day) => Some day
  | _ => None
  end.

(** The input function of the [date] type of the database on a date
    string: the day number, for a year from 1 to 5874897.  Of other
    spellings of a date, which no date input produces, the model knows
    none: they are an error here. *)
Definition date_in (s : string) : option Z :=
  match parse_ymd s with
  | Some (_, y, day) => if (1 <=? y) && (y <=? 5874897) then Some day else None
  | None => None
  end.

(** ** The JavaScript engine

    The language fixes what [Date.parse] makes of a string in its
    date-time string format and leaves every other string to the engine.
    The model reads the date-only form itself ([parse_date]); for any
    other string [Date_parse_other] stands for the answer of the engine
    at hand, milliseconds since the epoch or [None] for [NaN], and
    nothing is assumed about it. *)
Class Engine := Date_parse_other : string -> option Z.

(** [TimeClip]: a [Date] holds a time of at most 8.64e15 milliseconds
    either side of the epoch, or [NaN]. *)
Definition TimeClip (t : Z) : option Z :=
  if Z.abs t <=? 8640000000000000 then Some t else None.

(** [new Date(s).getTime()]. *)
Definition Date_getTime `{Engine} (s : string) : option Z :=
  match parse_date s with
  | Some days => Some (days * 86400000)
  | None =>
      match Date_parse_other s with
      | Some t => TimeClip t
      | None => None
      end
  end.

(** The difference of two times as JavaScript computes it.  Times are
    whole numbers below 2^53, which binary64 holds exactly; their
    difference is below 2^54, and from 2^53 on binary64 holds the even
    numbers only: an odd difference is rounded to the neighbour that is
    a multiple of 4. *)
Definition Number_sub (a b : Z) : Z :=
  let x := a - b in
  if Z.abs x <=? 2 ^ 53 then x
  else if Z.even x then x
  else if (x + 1) mod 4 =? 0 then x + 1 else x - 1.

(** [JSON.stringify] of a number: a number that is not finite is written
    as [null]. *)
Definition JSON_number (x : number) : option number :=
  if isFinite x then Some x else None.

(** ** Declared constraints *)

Definition conversation_key (c : conversation) : uuid * uuid * uuid :=
  (c_item_id c, c_owner_id c, c_renter_id c).

Definition participant_key (cp : conversation_participant) : uuid * uuid :=
  (p_conversation_id cp, p_user_id cp).

Definition message_types : list string :=
  ["text"; "system"; "rental_request"; "rental_update"].

(** [CONSTRAINT check_dates CHECK (end_date >= start_date)] over two
    [date] columns, which hold a date in the spelling of a date
    string. *)
Definition check_dates (r : rental) : Prop :=
  match date_in (r_start_date r), date_in (r_end_date r) with
  | Some s, Some e => s <= e
  | _, _ => False
  end.

Section constraints.
Variable db : DB.

Definition clothing_items_pkey : Prop := NoDup (i_id <$> clothing_items db).
Definition clothing_items_fkey : Prop :=
  Forall (fun i => i_owner_id i ∈ users db) (clothing_items db).

Definition rentals_pkey : Prop := NoDup (r_id <$> rentals db).
Definition rentals_fkey : Prop :=
  Forall (fun r => r_item_id r ∈ i_id <$> clothing_items db
                   ∧ r_renter_id r ∈ users db ∧ r_owner_id r ∈ users db)
         (rentals db).
Definition rentals_check_dates : Prop := Forall check_dates (rentals db).

Definition conversations_pkey : Prop := NoDup (c_id <$> conversations db).
(** [UNIQUE(item_id, owner_id, renter_id)]. *)
Definition conversations_key : Prop := NoDup (conversation_key <$> conversations db).
Definition conversations_fkey : Prop :=
  Forall (fun c => c_item_id c ∈ i_id <$> clothing_items db
                   ∧ c_owner_id c ∈ users db ∧ c_renter_id c ∈ users db
                   ∧ match c_rental_id c with
                     | Some r => r ∈ r_id <$> rentals db
                     | None => True
                     end)
         (conversations db).

Definition messages_pkey : Prop := NoDup (m_id <$> messages db).
Definition messages_fkey : Prop :=
  Forall (fun m => m_conversation_id m ∈ c_id <$> conversations db
                   ∧ m_sender_id m ∈ users db)
         (messages db).
Definition messages_message_type_check : Prop :=
  Forall (fun m => m_message_type m ∈ message_types) (messages db).

Definition conversation_participants_pkey : Prop :=
  NoDup (p_id <$> conversation_participants db).
(** [UNIQUE(conversation_id, user_id)]. *)
Definition conversation_participants_key : Prop :=
  NoDup (participant_key <$> conversation_participants db).
Definition conversation_participants_fkey : Prop :=
  Forall (fun cp => p_conversation_id cp ∈ c_id <$> conversations db
                    ∧ p_user_id cp ∈ users db)
         (conversation_participants db).

(** A database that satisfies every declared constraint. *)
Definition wf_db : Prop :=
  clothing_items_pkey ∧ clothing_items_fkey
  ∧ rentals_pkey ∧ rentals_fkey ∧ rentals_check_dates
  ∧ conversations_pkey ∧ conversations_key ∧ conversations_fkey
  ∧ messages_pkey ∧ messages_fkey ∧ messages_message_type_check
  ∧ conversation_participants_pkey ∧ conversation_participants_key
  ∧ conversation_participants_fkey.
End constraints.

#[global] Instance check_dates_dec r : Decision (check_dates r).
Proof.
  unfold check_dates.
  destruct (date_in (r_start_date r)), (date_in (r_end_date r)); apply _.
Defined.

#[global] Instance rental_fk_dec (o : option uuid) (l : list uuid) :
  Decision (match o with Some r => r ∈ l | None => True end).
Proof. destruct o; apply _. Defined.

#[global] Instance wf_db_dec db : Decision (wf_db db).
Proof.
  unfold wf_db, clothing_items_pkey, clothing_items_fkey, rentals_pkey, rentals_fkey,
    rentals_check_dates, conversations_pkey, conversations_key, conversations_fkey,
    messages_pkey, messages_fkey, messages_message_type_check,
    conversation_participants_pkey, conversation_participants_key,
    conversation_participants_fkey.
  apply _.
Defined.

(** The constraint check a statement runs on the rows it leaves behind:
    the first violated constraint is the error. *)
Definition check_constraints (db : DB) : result unit :=
  do _ <- require (bool_decide (clothing_items_pkey db)) (unique_violation "clothing_items_pkey");
  do _ <- require (bool_decide (clothing_items_fkey db)) (foreign_key_violation "clothing_items_owner_id_fkey");
  do _ <- require (bool_decide (rentals_pkey db)) (unique_violation "rentals_pkey");
  do _ <- require (bool_decide (rentals_fkey db)) (foreign_key_violation "rentals_fkey");
  do _ <- require (bool_decide (rentals_check_dates db)) (check_violation "check_dates");
  do _ <- require (bool_decide (conversations_pkey db)) (unique_violation "conversations_pkey");
  do _ <- require (bool_decide (conversations_key db))
                  (unique_violation "conversations_item_id_owner_id_renter_id_key");
  do _ <- require (bool_decide (conversations_fkey db)) (foreign_key_violation "conversations_fkey");
  do _ <- require (bool_decide (messages_pkey db)) (unique_violation "messages_pkey");
  do _ <- require (bool_decide (messages_fkey db)) (foreign_key_violation "messages_fkey");
  do _ <- require (bool_decide (messages_message_type_check db))
                  (check_violation "messages_message_type_check");
  do _ <- require (bool_decide (conversation_participants_pkey db))
                  (unique_violation "conversation_participants_pkey");
  do _ <- require (bool_decide (conversation_participants_key db))
                  (unique_violation "conversation_participants_conversation_id_user_id_key");
  do _ <- require (bool_decide (conversation_participants_fkey db))
                  (foreign_key_violation "conversation_participants_fkey");
  Ok tt.

(** ** Reads

    A [SELECT] sees the rows its table's SELECT policy admits; every
    filter of a request applies to those. *)

Definition select_conversations (p : principal) (db : DB) : list conversation :=
  List.filter (conversations_select p) (conversations db).

Definition select_messages (p : principal) (db : DB) : list message :=
  List.filter (messages_select p db) (messages db).

Definition select_conversation_participants (p : principal) (db : DB)
  : list conversation_participant :=
  List.filter (participants_select p) (conversation_participants db).

(** [.single()]: the row when exactly one row came back, an error
    otherwise. *)
Definition single {A} (rows : list A) : option A :=
  match rows with
  | [r] => Some r
  | _ => None
  end.

(** [.order(column, { ascending })] on a timestamp column. *)
Definition descending {A} (key : A -> Z) : relation A := fun a b => key b <= key a.
Definition ascending {A} (key : A -> Z) : relation A := fun a b => key a <= key b.

#[global] Instance descending_dec {A} (key : A -> Z) a b : Decision (descending key a b).
Proof. unfold descending. apply _. Defined.

#[global] Instance ascending_dec {A} (key : A -> Z) a b : Decision (ascending key a b).
Proof. unfold ascending. apply _. Defined.

Definition order_desc {A} (key : A -> Z) (rows : list A) : list A :=
  merge_sort (descending key) rows.

Definition order_asc {A} (key : A -> Z) (rows : list A) : list A :=
  merge_sort (ascending key) rows.

(** ** Writes

    An [INSERT] whose row fails the WITH CHECK expression of the insert
    policy is an error.  An [UPDATE ... WHERE] changes the rows that its
    filter matches and that both the SELECT policy (the filter reads the
    row) and the USING expression of the UPDATE policy admit, and skips
    the others without an error; every changed row must pass the check
    of the UPDATE policy (its USING expression, none of the policies
    having a WITH CHECK clause) and, the statement reading the table,
    the SELECT policy as well, or the statement is an error.  A trigger
    function of the migration is not
    [SECURITY DEFINER], so its statements run, under the same policies,
    for the session that fired it.  [now()] is the time of the statement
    that the client sent. *)

Definition update_conversations (p : principal) (filter : conversation -> bool)
    (set : conversation -> conversation) (db : DB) : result (list conversation * DB) :=
  let target c := filter c && conversations_select p c && conversations_update p c in
  let changed := map set (List.filter target (conversations db)) in
  do _ <- require (forallb (fun c => conversations_select p c && conversations_update p c)
                           changed) insufficient_privilege;
  let db' := set_conversations
               (map (fun c => if target c then set c else c) (conversations db)) db in
  do _ <- check_constraints db';
  Ok (changed, db').

Definition update_messages (p : principal) (filter : message -> bool)
    (set : message -> message) (db : DB) : result (list message * DB) :=
  let target m := filter m && messages_select p db m && messages_update p m in
  let changed := map set (List.filter target (messages db)) in
  do _ <- require (forallb (fun m => messages_select p db m && messages_update p m)
                           changed) insufficient_privilege;
  let db' := set_messages (map (fun m => if target m then set m else m) (messages db)) db in
  do _ <- check_constraints db';
  Ok (changed, db').

Definition update_conversation_participants (p : principal)
    (filter : conversation_participant -> bool)
    (set : conversation_participant -> conversation_participant) (db : DB)
  : result (list conversation_participant * DB) :=
  let target cp := filter cp && participants_select p cp && participants_update p cp in
  let changed := map set (List.filter target (conversation_participants db)) in
  do _ <- require (forallb (fun cp => participants_select p cp && participants_update p cp)
                           changed) insufficient_privilege;
  let db' := set_conversation_participants
               (map (fun cp => if target cp then set cp else cp)
                    (conversation_participants db)) db in
  do _ <- check_constraints db';
  Ok (changed, db').

(** [INSERT INTO conversation_participants (conversation_id, user_id)
    VALUES (...) ON CONFLICT (conversation_id, user_id) DO NOTHING]. *)
Definition insert_conversation_participant (p : principal) (now : timestamptz)
    (conversation_id user_id : uuid) (db : DB) : result DB :=
  let NEW := mk_conversation_participant (gen_random_uuid db) conversation_id user_id
                                          now (Some now) in
  do _ <- require (participants_insert p db NEW) insufficient_privilege;
  if bool_decide (participant_key NEW ∈ participant_key <$> conversation_participants db)
  then Ok db
  else
    let db' := set_conversation_participants (conversation_participants db ++ [NEW]) db in
    do _ <- check_constraints db';
    Ok db'.

(** Trigger function [create_conversation_participants()], fired
    [AFTER INSERT ON conversations FOR EACH ROW]. *)
Definition create_conversation_participants (p : principal) (now : timestamptz)
    (NEW : conversation) (db : DB) : result DB :=
  (* Add owner as participant *)
  do db <- insert_conversation_participant p now (c_id NEW) (c_owner_id NEW) db;
  (* Add renter as participant *)
  do db <- insert_conversation_participant p now (c_id NEW) (c_renter_id NEW) db;
  Ok db.

(** [INSERT INTO conversations (item_id, owner_id, renter_id)]: the
    other columns take their defaults. *)
Definition insert_conversation (p : principal) (now : timestamptz)
    (item_id owner_id renter_id : uuid) (db : DB) : result (conversation * DB) :=
  let NEW := mk_conversation (gen_random_uuid db) item_id owner_id renter_id None
                             now now now in
  do _ <- require (conversations_insert p NEW) insufficient_privilege;
  let db1 := set_conversations (conversations db ++ [NEW]) db in
  do _ <- check_constraints db1;
  do db2 <- create_conversation_participants p now NEW db1;
  Ok (NEW, db2).

(** Trigger function [update_conversation_last_message()], fired
    [AFTER INSERT ON messages FOR EACH ROW]. *)
Definition update_conversation_last_message (p : principal) (NEW : message) (db : DB)
  : result DB :=
  do r <- update_conversations p
            (fun c => (c_id c =? m_conversation_id NEW)%nat)
            (fun c => mk_conversation (c_id c) (c_item_id c) (c_owner_id c) (c_renter_id c)
                        (c_rental_id c) (m_created_at NEW) (c_created_at c) (m_created_at NEW))
            db;
  Ok (snd r).

(** [INSERT INTO messages (conversation_id, sender_id, content,
    message_type, metadata)]. *)
Definition insert_message (p : principal) (now : timestamptz)
    (conversation_id sender_id : uuid) (text : content) (message_type : string)
    (metadata : json) (db : DB) : result (message * DB) :=
  let NEW := mk_message (gen_random_uuid db) conversation_id sender_id text message_type
                        metadata (JObj []) now in
  do _ <- require (messages_insert p db NEW) insufficient_privilege;
  let db1 := set_messages (messages db ++ [NEW]) db in
  do _ <- check_constraints db1;
  do db2 <- update_conversation_last_message p NEW db1;
  Ok (NEW, db2).

(** [INSERT INTO rentals (item_id, renter_id, owner_id, start_date,
    end_date, total_price, status)], the values as the request carries
    them: the dates as strings, the price as a JSON number or [null].
    The dates are read first; the policy, which reads [renter_id] alone,
    comes before the constraints of the table. *)
Definition insert_rental (p : principal) (now : timestamptz)
    (item_id renter_id owner_id : uuid) (start_date end_date : string)
    (total_price : option number) (status : rental_status) (db : DB) : result DB :=
  let NEW total := mk_rental (gen_random_uuid db) item_id renter_id owner_id start_date
                             end_date total status now in
  do _ <- require (bool_decide (is_Some (date_in start_date) /\ is_Some (date_in end_date)))
                  invalid_datetime_format;
  do _ <- require (rentals_insert p (NEW (default (Number_of_Z 0) total_price)))
                  insufficient_privilege;
  do total <- match total_price with
              | Some total => Ok total
              | None => Err (not_null_violation "total_price")
              end;
  let db' := set_rentals (rentals db ++ [NEW total]) db in
  do _ <- check_constraints db';
  Ok db'.

(** ** [ChatService] (src/lib/chat.ts): requests

    Every method sends its requests with the session of the signed-in
    user, [p].  A method that catches an error answers [null] ([None]) or
    the empty list.  The rows a method returns are given without the
    joined item and user columns. *)

(** [getOrCreateConversation].  Between the lookup and the insert the
    method awaits; [interleaved] is what other sessions commit meanwhile
    (the identity when there are none). *)
Definition getOrCreateConversation (p : principal) (now : timestamptz)
    (interleaved : DB -> DB) (itemId ownerId renterId : uuid) (db : DB)
  : option conversation * DB :=
  (* First try to find existing conversation *)
  let existing :=
    single (List.filter (fun c => (c_item_id c =? itemId)%nat
                                  && (c_owner_id c =? ownerId)%nat
                                  && (c_renter_id c =? renterId)%nat)
                        (select_conversations p db)) in
  match existing with
  | Some c => (Some c, db)
  | None =>
      (* Create new conversation if it doesn't exist *)
      let db := interleaved db in
      match insert_conversation p now itemId ownerId renterId db with
      | Ok (newConversation, db') => (Some newConversation, db')
      | Err createError => (None, db)
      end
  end.

(** The messages of a conversation that the session can see. *)
Definition messages_of (p : principal) (db : DB) (conversation_id : uuid) : list message :=
  List.filter (fun m => (m_conversation_id m =? conversation_id)%nat) (select_messages p db).

(** The "Get unread count" block of [getUserConversations]: first the
    participant row of the user, then the count. *)
Definition participant_of (p : principal) (userId : uuid) (db : DB) (conversation_id : uuid)
  : option conversation_participant :=
  single (List.filter (fun cp => (p_conversation_id cp =? conversation_id)%nat
                                 && (p_user_id cp =? userId)%nat)
                      (select_conversation_participants p db)).

Definition unreadCount (p : principal) (userId : uuid) (db : DB) (conversation_id : uuid)
  : nat :=
  match participant_of p userId db conversation_id with
  | Some cp =>
      match p_last_read_at cp with
      | Some last_read_at =>
          length (List.filter (fun m => negb (m_sender_id m =? userId)%nat
                                        && (last_read_at <? m_created_at m))
                              (messages_of p db conversation_id))
      | None => 0%nat
      end
  | None => 0%nat
  end.

(** An element of the array [getUserConversations] resolves to. *)
Record conversation_view := mk_conversation_view {
  v_conversation : conversation;
  v_messages : list message;
  last_message : option message;
  unread_count : nat
}.

Definition getUserConversations (p : principal) (userId : uuid) (db : DB)
  : list conversation_view :=
  let data :=
    order_desc c_last_message_at
      (List.filter (fun c => ((c_owner_id c =? userId)%nat || (c_renter_id c =? userId)%nat)
                             (* messages!inner(...) *)
                             && negb (Nat.eqb (length (messages_of p db (c_id c))) 0))
                   (select_conversations p db)) in
  map (fun conv =>
         (* Get last message *)
         let lastMessage := head (order_desc m_created_at (messages_of p db (c_id conv))) in
         mk_conversation_view conv (messages_of p db (c_id conv)) lastMessage
                              (unreadCount p userId db (c_id conv)))
      data.

Definition getMessages (p : principal) (conversationId : uuid) (db : DB) : list message :=
  order_asc m_created_at (messages_of p db conversationId).

Definition sendMessage (p : principal) (now : timestamptz) (conversationId senderId : uuid)
    (text : content) (messageType : string) (metadata : json) (db : DB)
  : option message * DB :=
  match insert_message p now conversationId senderId text messageType metadata db with
  | Ok (data, db') => (Some data, db')
  | Err error => (None, db)
  end.

(** [markAsRead] writes [new Date().toISOString()]: the clock of the
    client, in milliseconds. *)
Definition markAsRead (p : principal) (Date_now : Z) (conversationId userId : uuid) (db : DB)
  : DB :=
  match update_conversation_participants p
          (fun cp => (p_conversation_id cp =? conversationId)%nat
                     && (p_user_id cp =? userId)%nat)
          (fun cp => mk_conversation_participant (p_id cp) (p_conversation_id cp)
                       (p_user_id cp) (p_joined_at cp) (Some (Date_now * 1000)))
          db with
  | Ok (_, db') => db'
  | Err _ => db
  end.

(** ** [ChatService]: live subscriptions

    The realtime client keeps one channel for a topic:
    [supabase.channel(topic)] answers with the channel of that topic when
    there is one, so a channel is known by its topic.  [subscriptions] is
    the [Map] of the service; [channels] are the channels of the client
    that are joined. *)

(** [`messages:${conversationId}`] and [`conversations:${userId}`]. *)
Inductive topic :=
| MessagesTopic (conversationId : uuid)
| ConversationsTopic (userId : uuid).

#[global] Instance topic_eq_dec : EqDecision topic.
Proof. solve_decision. Defined.

#[global] Instance topic_countable : Countable topic.
Proof.
  apply (inj_countable'
           (fun t => match t with
                     | MessagesTopic conversationId => inl conversationId
                     | ConversationsTopic userId => inr userId
                     end)
           (fun x => match x with
                     | inl conversationId => MessagesTopic conversationId
                     | inr userId => ConversationsTopic userId
                     end)).
  intros []; reflexivity.
Defined.

Record Runtime := mk_Runtime {
  subscriptions : gmap uuid topic;
  channels : gset topic
}.

Definition new_Runtime : Runtime := mk_Runtime ∅ ∅.

(** [supabase.channel(topic).on(...).subscribe()]. *)
Definition subscribe (t : topic) (rt : Runtime) : topic * Runtime :=
  (t, mk_Runtime (subscriptions rt) ({[t]} ∪ channels rt)).

(** [subscription.unsubscribe()]. *)
Definition unsubscribe (subscription : topic) (chs : gset topic) : gset topic :=
  chs ∖ {[subscription]}.

(** The cancellation function a subscribe method returns. *)
Inductive handle :=
| MessagesHandle (conversationId : uuid) (subscription : topic)
| ConversationsHandle (subscription : topic).

Definition handle_subscription (h : handle) : topic :=
  match h with
  | MessagesHandle _ subscription => subscription
  | ConversationsHandle subscription => subscription
  end.

Definition subscribeToMessages (conversationId : uuid) (rt : Runtime) : handle * Runtime :=
  let (subscription, rt) := subscribe (MessagesTopic conversationId) rt in
  (MessagesHandle conversationId subscription,
   mk_Runtime (<[conversationId := subscription]> (subscriptions rt)) (channels rt)).

Definition subscribeToConversations (userId : uuid) (rt : Runtime) : handle * Runtime :=
  let (subscription, rt) := subscribe (ConversationsTopic userId) rt in
  (ConversationsHandle subscription, rt).

Definition cancel (h : handle) (rt : Runtime) : Runtime :=
  match h with
  | MessagesHandle conversationId subscription =>
      mk_Runtime (delete conversationId (subscriptions rt))
                 (unsubscribe subscription (channels rt))
  | ConversationsHandle subscription =>
      mk_Runtime (subscriptions rt) (unsubscribe subscription (channels rt))
  end.

(** [cleanup]: [forEach] over the map, then [clear()]. *)
Definition cleanup (rt : Runtime) : Runtime :=
  mk_Runtime ∅
             (map_fold (fun _ subscription chs => unsubscribe subscription chs)
                       (channels rt) (subscriptions rt)).

(** ** [RentItemModal] (src/components/RentItemModal.tsx) *)

Record form := mk_form {
  startDate : string;
  endDate : string;
  totalPrice : number
}.

Definition new_form : form := mk_form "" "" 0.

(** [Math.ceil(a / b)] for a difference [a] of two times and the
    milliseconds [b] of a day.  The quotient that binary64 holds is a
    whole number only when the exact quotient is one, or lies below that
    whole number, so its ceiling is the ceiling of the exact quotient. *)
Definition ceil_div (a b : Z) : Z := - ((- a) / b).

(** [calculatePrice]: the value it passes to [setTotalPrice].  With an
    invalid date [days] is [NaN], and [NaN > 0] is false. *)
Definition calculatePrice `{Engine} (item : clothing_item) (start end_ : string) : number :=
  if negb (start =? "")%string && negb (end_ =? "")%string then
    match Date_getTime start, Date_getTime end_ with
    | Some startD, Some endD =>
        let days := ceil_div (Number_sub endD startD) (1000 * 60 * 60 * 24) in
        if 0 <? days then (Number_of_Z days * i_price_per_day item)%number else 0%number
    | _, _ => 0%number
    end
  else 0%number.

Definition handleStartDateChange `{Engine} (item : clothing_item) (date : string) (f : form)
  : form :=
  mk_form date (endDate f) (calculatePrice item date (endDate f)).

Definition handleEndDateChange `{Engine} (item : clothing_item) (date : string) (f : form)
  : form :=
  mk_form (startDate f) date (calculatePrice item (startDate f) date).

Inductive toast :=
| toast_error (message : string)
| toast_error_of (e : pg_error)
| toast_success.

(** [handleSubmit].  [user] is the answer of [supabase.auth.getUser()];
    the three statements it sends run at the server times [now1], [now2]
    and [now3]. *)
Definition handleSubmit (item : clothing_item) (user : option uuid)
    (now1 now2 now3 : timestamptz) (interleaved : DB -> DB) (f : form) (db : DB)
  : toast * DB :=
  if (totalPrice f <=? 0)%number then (toast_error "Please select valid dates", db)
  else
    match user with
    | None => (toast_error "User not authenticated", db)
    | Some user_id =>
        let p := Authenticated user_id in
        match insert_rental p now1 (i_id item) user_id (i_owner_id item)
                (startDate f) (endDate f) (JSON_number (totalPrice f)) pending db with
        | Err error => (toast_error_of error, db)
        | Ok db =>
            (* Create or get conversation and send initial message *)
            let (conversation, db) :=
              getOrCreateConversation p now2 interleaved (i_id item) (i_owner_id item)
                                      user_id db in
            let db :=
              match conversation with
              | Some conversation =>
                  snd (sendMessage p now3 (c_id conversation) user_id
                         (RentalRequestText (i_title item) (startDate f) (endDate f)
                                            (totalPrice f))
                         "rental_request"
                         (JObj [("rental_details",
                                 JObj [("start_date", JStr (startDate f));
                                       ("end_date", JStr (endDate f));
                                       ("total_price",
                                        match JSON_number (totalPrice f) with
                                        | Some total => JNum total
                                        | None => JNull
                                        end)])])
                         db)
              | None => db
              end in
            (toast_success, db)
        end
    end.


(** ** Sequences of statements *)

(** A client's request to insert a message: its session, the server
    time at which the statement runs, and the columns it sets. *)
Record message_request := mk_message_request {
  q_session : principal;
  q_now : timestamptz;
  q_conversation_id : uuid;
  q_sender_id : uuid;
  q_text : content;
  q_message_type : string;
  q_metadata : json
}.

(** The requests of a list, one after the other; the rows inserted, in
    order. *)
Fixpoint insert_messages (qs : list message_request) (db : DB)
  : result (list message * DB) :=
  match qs with
  | [] => Ok ([], db)
  | q :: qs =>
      do r <- insert_message (q_session q) (q_now q) (q_conversation_id q) (q_sender_id q)
                (q_text q) (q_message_type q) (q_metadata q) db;
      do rs <- insert_messages qs (snd r);
      Ok (fst r :: fst rs, snd rs)
  end.

(** The same participant insert, [n] times in a row. *)
Fixpoint insert_conversation_participant_times (n : nat) (p : principal)
    (now : timestamptz) (conversation_id user_id : uuid) (db : DB) : result DB :=
  match n with
  | O => Ok db
  | S n =>
      do db <- insert_conversation_participant p now conversation_id user_id db;
      insert_conversation_participant_times n p now conversation_id user_id db
  end.

(** ** Rows and states that the results speak of *)

(** The row that a participant insert adds. *)
Definition new_participant (db : DB) (now : timestamptz) (conversation_id user_id : uuid)
  : conversation_participant :=
  mk_conversation_participant (gen_random_uuid db) conversation_id user_id now (Some now).

(** A participant row marked as read at [t]. *)
Definition read_at (t : timestamptz) (cp : conversation_participant)
  : conversation_participant :=
  mk_conversation_participant (p_id cp) (p_conversation_id cp) (p_user_id cp)
                              (p_joined_at cp) (Some t).

(** The map of the service holds, for a conversation, the channel of
    its messages. *)
Definition handed_out (rt : Runtime) : Prop :=
  forall k s, subscriptions rt !! k = Some s -> s = MessagesTopic k.

(** What a component does with the service, one call after the
    other. *)
Inductive action :=
| SubscribeToMessages (conversationId : uuid)
| SubscribeToConversations (userId : uuid)
| Cancel (h : handle)
| Cleanup.

Definition step (rt : Runtime) (a : action) : Runtime :=
  match a with
  | SubscribeToMessages conversationId => snd (subscribeToMessages conversationId rt)
  | SubscribeToConversations userId => snd (subscribeToConversations userId rt)
  | Cancel h => cancel h rt
  | Cleanup => cleanup rt
  end.

Definition run (actions : list action) (rt : Runtime) : Runtime :=
  fold_left step actions rt.

(** ** Example databases

    User 1 owns a jacket; users 2 and 3 are other members. *)

Definition jacket : clothing_item := mk_clothing_item 10 "Jacket" 100 1.

Definition db_listed : DB := mk_DB [1; 2; 3]%nat [jacket] [] [] [] [].

(** A thread about the jacket between its owner and user 2, with both
    participant rows and no message yet. *)
Definition thread : conversation := mk_conversation 20 10 1 2 None 5 5 5.

Definition db_thread : DB :=
  mk_DB [1; 2; 3]%nat [jacket] [] [thread] []
        [mk_conversation_participant 21 20 1 5 (Some 5);
         mk_conversation_participant 22 20 2 5 (Some 5)].

(** The same thread after the owner wrote one message. *)
Definition hello : message :=
  mk_message 30 20 1 (Text "Still available") "text" (JObj []) (JObj []) 5000400.

Definition db_chat : DB :=
  mk_DB [1; 2; 3]%nat [jacket] []
        [mk_conversation 20 10 1 2 None 5000400 5 5000400] [hello]
        [mk_conversation_participant 21 20 1 5 (Some 5);
         mk_conversation_participant 22 20 2 5 (Some 5)].

(** The chat beside a second thread about the jacket, between its owner
    and user 3, in which user 3 wrote one message. *)
Definition db_two_threads : DB :=
  mk_DB [1; 2; 3]%nat [jacket] []
        [mk_conversation 20 10 1 2 None 5000400 5 5000400;
         mk_conversation 40 10 1 3 None 6000000 6 6000000]
        [hello;
         mk_message 31 40 3 (Text "Is it still free?") "text" (JObj []) (JObj []) 6000000]
        [mk_conversation_participant 21 20 1 5 (Some 5);
         mk_conversation_participant 22 20 2 5 (Some 5);
         mk_conversation_participant 41 40 1 6 (Some 6);
         mk_conversation_participant 42 40 3 6 (Some 6)].

(** The chat when the participant row of user 2 carries no
    [last_read_at]. *)
Definition db_never_read : DB :=
  mk_DB [1; 2; 3]%nat [jacket] []
        [mk_conversation 20 10 1 2 None 5000400 5 5000400] [hello]
        [mk_conversation_participant 21 20 1 5 (Some 5);
         mk_conversation_participant 22 20 2 5 None].

(** Another session that commits the thread about the jacket while a
    client awaits. *)
Definition other_session (db : DB) : DB :=
  match insert_conversation TableOwner 5 10 1 2 db with
  | Ok (_, db') => db'
  | Err _ => db
  end.

(** The form of the rental request of the scenario: the dates are
    picked, start first. *)
Definition request_form `{Engine} : form :=
  handleEndDateChange jacket "2024-06-03"
    (handleStartDateChange jacket "2024-06-01" new_form).

(** An engine whose [Date.parse] reads the date-time string format and
    nothing beyond it. *)
Definition format_only : Engine := fun _ => None.

(** An engine that also reads a date string with a year of more than
    four digits, as midnight UTC of that day. *)
Definition long_years : Engine :=
  fun s => match parse_ymd s with
           | Some (_, _, day) => Some (day * 86400000)
           | None => None
           end.

(** ** The form of [RentItemModal] over time *)

(** What the user does with the two date inputs. *)
Inductive form_event :=
| PickStart (date : string)
| PickEnd (date : string).

Definition form_step `{Engine} (item : clothing_item) (f : form) (e : form_event) : form :=
  match e with
  | PickStart date => handleStartDateChange item date f
  | PickEnd date => handleEndDateChange item date f
  end.

(** The string a pick hands to the component. *)
Definition picked (e : form_event) : string :=
  match e with
  | PickStart date => date
  | PickEnd date => date
  end.

(** The values a date input can hold: the empty string, when the input
    is cleared, or a date string. *)
Definition date_input_value (s : string) : Prop := s = "" \/ is_Some (date_in s).

(** The form after a series of picks, from the empty form the component
    starts with. *)
Definition form_after `{Engine} (item : clothing_item) (events : list form_event) : form :=
  fold_left (form_step item) events new_form.

(** ** [ItemCard] (src/components/ItemCard.tsx) *)

Inductive chat_outcome :=
| chat_nothing
| chat_opened (conversationId : uuid)
| chat_toast (message : string).

(** [handleStartChat], in the session of [currentUserId]; [onOpenChat]
    tells whether the optional callback was given. *)
Definition handleStartChat (item : clothing_item) (currentUserId : uuid) (onOpenChat : bool)
    (now : timestamptz) (interleaved : DB -> DB) (db : DB) : chat_outcome * DB :=
  if (i_owner_id item =? currentUserId)%nat then (chat_nothing, db)
  else
    let (conversation, db) :=
      getOrCreateConversation (Authenticated currentUserId) now interleaved (i_id item)
                              (i_owner_id item) currentUserId db in
    match conversation with
    | Some conversation =>
        if onOpenChat then (chat_opened (c_id conversation), db)
        else (chat_toast "Unable to start chat", db)
    | None => (chat_toast "Unable to start chat", db)
    end.

(** ** [ChatModal] (src/components/ChatModal.tsx): the list of conversations *)

(** An element of the [conversations] state: a [Conversation] object,
    whose [messages], [last_message] and [unread_count] are there when it
    came from [getUserConversations] and missing when it came from the
    live feed. *)
Record chat_entry := mk_chat_entry {
  e_conversation : conversation;
  e_messages : option (list message);
  e_last_message : option message;
  e_unread_count : option nat
}.

Definition entry_of_view (v : conversation_view) : chat_entry :=
  mk_chat_entry (v_conversation v) (Some (v_messages v)) (last_message v)
                (Some (unread_count v)).

Definition entry_of_row (c : conversation) : chat_entry := mk_chat_entry c None None None.

(** [new Date(s).getTime()] of a [timestamptz] as the API writes it: a
    [Date] holds whole milliseconds, the digits of the microseconds
    beyond them are dropped. *)
Definition Date_of_timestamptz (t : timestamptz) : Z := t / 1000.

(** The time an entry is sorted by:
    [new Date(e.last_message_at).getTime()]. *)
Definition entry_time (e : chat_entry) : Z :=
  Date_of_timestamptz (c_last_message_at (e_conversation e)).

(** [Array.prototype.findIndex]; [None] is -1. *)
Fixpoint findIndex {A} (f : A -> bool) (l : list A) : option nat :=
  match l with
  | [] => None
  | x :: l => if f x then Some O else option_map S (findIndex f l)
  end.

(** [Array.prototype.sort] with the comparator
    [(a, b) => new Date(b.last_message_at).getTime()
               - new Date(a.last_message_at).getTime()]:
    a stable sort, newest first; entries of the same millisecond keep
    the order they had. *)
Fixpoint sort_insert (x : chat_entry) (l : list chat_entry) : list chat_entry :=
  match l with
  | [] => [x]
  | y :: l' =>
      if entry_time y <=? entry_time x
      then x :: y :: l'
      else y :: sort_insert x l'
  end.

Definition sort_newest_first (l : list chat_entry) : list chat_entry :=
  foldr sort_insert [] l.

(** The state update that the callback of [subscribeToConversations]
    makes with the conversation row the feed delivered. *)
Definition onConversationChange (updatedConversation : conversation)
    (prev : list chat_entry) : list chat_entry :=
  match findIndex (fun c => (c_id (e_conversation c) =? c_id updatedConversation)%nat) prev with
  | Some index => sort_newest_first (<[index := entry_of_row updatedConversation]> prev)
  | None => entry_of_row updatedConversation :: prev
  end.

(** ** [supabase.ts]: helpers, and their callers *)

(** [String.prototype.toLowerCase] on the letters A to Z; no other
    character lowers to a character of the domain suffix. *)
Definition lower_ascii (a : ascii) : ascii :=
  let n := nat_of_ascii a in
  if (65 <=? n)%nat && (n <=? 90)%nat then ascii_of_nat (n + 32) else a.

Fixpoint toLowerCase (s : string) : string :=
  match s with
  | EmptyString => EmptyString
  | String a s' => String (lower_ascii a) (toLowerCase s')
  end.

(** [String.prototype.endsWith]. *)
Definition endsWith (s suffix : string) : bool :=
  let n := String.length s in
  let m := String.length suffix in
  (m <=? n)%nat && (substring (n - m) m s =? suffix)%string.

(** [String.prototype.includes]. *)
Definition includes (s sub : string) : bool :=
  match index 0 sub s with
  | Some _ => true
  | None => false
  end.

(** [isValidSSNEmail]. *)
Definition isValidSSNEmail (email : string) : bool :=
  endsWith (toLowerCase email) "@ssn.edu.in".

(** An error object of the client library. *)
Record client_error := mk_client_error {
  err_code : option string;
  err_message : option string
}.

Record error_info := mk_error_info {
  isSchemaError : bool;
  info_message : string
}.

Definition message_has (error : option client_error) (phrase : string) : bool :=
  match error with
  | Some e => match err_message e with Some m => includes m phrase | None => false end
  | None => false
  end.

(** [handleDatabaseError]. *)
Definition handleDatabaseError (error : option client_error) : error_info :=
  if match error with
     | Some e => match err_code e with Some c => (c =? "PGRST205")%string | None => false end
     | None => false
     end
     || message_has error "Could not find the table"
     || message_has error "schema cache"
  then mk_error_info true
         "Database tables not found. Please set up the database schema in your Supabase project."
  else mk_error_info false
         match error with
         | Some e =>
             match err_message e with
             | Some m => if (m =? "")%string then "An error occurred" else m
             | None => "An error occurred"
             end
         | None => "An error occurred"
         end.

(** What the query of [fetchItems] does: it answers with data and an
    error field, or the request throws. *)
Inductive query_outcome :=
| answered (data : option (list clothing_item)) (error : option client_error)
| thrown (error : option client_error).

(** [fetchItems] of [Dashboard]: the new [items] state, when it is set,
    and the toast, when one is shown. *)
Definition fetchItems (q : query_outcome) : option (list clothing_item) * option string :=
  let on_catch error :=
    let errorInfo := handleDatabaseError error in
    Some (if isSchemaError errorInfo
          then "Database schema not set up. Please create the required tables in Supabase."
          else "Error loading items") in
  match q with
  | answered data (Some error) =>
      let errorInfo := handleDatabaseError (Some error) in
      if isSchemaError errorInfo then (Some [], None)
      else (None, on_catch (Some error))
  | answered data None =>
      (Some (match data with Some items => items | None => [] end), None)
  | thrown error => (None, on_catch error)
  end.

(** The requests that [AuthForm] sends to the authentication service. *)
Record auth_form := mk_auth_form {
  email : string;
  password : string;
  fullName : string;
  phone : string
}.

Inductive auth_request :=
| signInWithPassword (email password : string)
| signUp (email password full_name phone : string).

Definition request_email (r : auth_request) : string :=
  match r with
  | signInWithPassword email _ => email
  | signUp email _ _ _ => email
  end.

Inductive auth_toast :=
| auth_error (message : string)
| auth_success (message : string).

(** [handleSubmit] of [AuthForm]: the requests it sends, given what the
    service answers ([Some] message for an error), and the toast. *)
Definition AuthForm_handleSubmit (isLogin : bool) (formData : auth_form)
    (auth : auth_request -> option string) : list auth_request * auth_toast :=
  if negb (isValidSSNEmail (email formData))
  then ([], auth_error "Please use your SSN College email address (@ssn.edu.in)")
  else if isLogin then
    let request := signInWithPassword (email formData) (password formData) in
    match auth request with
    | Some error_message => ([request], auth_error error_message)
    | None => ([request], auth_success "Welcome back to DRIPSTER!")
    end
  else
    let request := signUp (email formData) (password formData) (fullName formData)
                          (phone formData) in
    match auth request with
    | Some error_message => ([request], auth_error error_message)
    | None => ([request], auth_success "Please check your email to confirm your account")
    end.

(** * Properties *)

(** ** The error monad *)

Lemma bind_Ok {A B} (r : result A) (k : A -> result B) (b : B) :
  bind r k = Ok b -> exists a, r = Ok a /\ k a = Ok b.
Proof. destruct r as [a|e]; simpl; [eauto | discriminate]. Qed.

Lemma require_Ok (b : bool) (e : pg_error) (u : unit) : require b e = Ok u -> b = true.
Proof. destruct b; [reflexivity | discriminate]. Qed.

Lemma require_true (e : pg_error) : require true e = Ok tt.
Proof. reflexivity. Qed.

(** Splits a hypothesis [do x <- r; k = Ok b] into its two steps. *)
Ltac bind_inv H :=
  let a := fresh "a" in
  let Ha := fresh "Hstep" in
  apply bind_Ok in H; destruct H as (a & Ha & H).

(** ** Constraints *)

Lemma check_constraints_wf (db : DB) : check_constraints db = Ok tt <-> wf_db db.
Proof.
  unfold check_constraints, wf_db. split.
  - intros H.
    repeat (let Hs := fresh "Hs" in
            apply bind_Ok in H; destruct H as (? & Hs & H);
            apply require_Ok, bool_decide_eq_true in Hs).
    tauto.
  - intros H. decompose [and] H.
    repeat (rewrite bool_decide_eq_true_2 by assumption; simpl).
    reflexivity.
Qed.

Lemma check_constraints_unit (db : DB) (u : unit) : check_constraints db = Ok u -> wf_db db.
Proof. destruct u. apply check_constraints_wf. Qed.

Lemma wf_db_conversations_pkey db : wf_db db -> conversations_pkey db.
Proof. unfold wf_db. tauto. Qed.

Lemma wf_db_conversations_key db : wf_db db -> conversations_key db.
Proof. unfold wf_db. tauto. Qed.

Lemma wf_db_participants_key db : wf_db db -> conversation_participants_key db.
Proof. unfold wf_db. tauto. Qed.

Lemma wf_db_participants_fkey db : wf_db db -> conversation_participants_fkey db.
Proof. unfold wf_db. tauto. Qed.

Lemma wf_db_messages_fkey db : wf_db db -> messages_fkey db.
Proof. unfold wf_db. tauto. Qed.

(** ** Fresh identifiers *)

Lemma gen_random_uuid_fresh (db : DB) (id : uuid) :
  id ∈ all_ids db -> id ≠ gen_random_uuid db.
Proof.
  intros Hin. apply max_list_elem_of_le in Hin. unfold gen_random_uuid. lia.
Qed.

Lemma gen_random_uuid_conversations (db : DB) :
  gen_random_uuid db ∉ c_id <$> conversations db.
Proof.
  intros Hin. apply (gen_random_uuid_fresh db (gen_random_uuid db)); [|reflexivity].
  unfold all_ids. rewrite !elem_of_app. tauto.
Qed.

Lemma gen_random_uuid_messages (db : DB) :
  gen_random_uuid db ∉ m_id <$> messages db.
Proof.
  intros Hin. apply (gen_random_uuid_fresh db (gen_random_uuid db)); [|reflexivity].
  unfold all_ids. rewrite !elem_of_app. tauto.
Qed.

Lemma gen_random_uuid_participants (db : DB) :
  gen_random_uuid db ∉ p_id <$> conversation_participants db.
Proof.
  intros Hin. apply (gen_random_uuid_fresh db (gen_random_uuid db)); [|reflexivity].
  unfold all_ids. rewrite !elem_of_app. tauto.
Qed.

Lemma gen_random_uuid_rentals (db : DB) :
  gen_random_uuid db ∉ r_id <$> rentals db.
Proof.
  intros Hin. apply (gen_random_uuid_fresh db (gen_random_uuid db)); [|reflexivity].
  unfold all_ids. rewrite !elem_of_app. tauto.
Qed.

(** ** Lists of rows *)

Lemma filter_filter_andb {A} (f g : A -> bool) (l : list A) :
  List.filter f (List.filter g l) = List.filter (fun x => g x && f x) l.
Proof.
  induction l as [|x l IH]; simpl; [reflexivity|].
  destruct (g x); simpl; [destruct (f x)|]; rewrite ?IH; reflexivity.
Qed.

Lemma filter_nil_iff {A} (f : A -> bool) (l : list A) :
  List.filter f l = [] <-> forall x, In x l -> f x = false.
Proof.
  induction l as [|x l IH]; simpl.
  - split; [intros _ y [] | reflexivity].
  - destruct (f x) eqn:Hx; split.
    + discriminate.
    + intros H. specialize (H x (or_introl eq_refl)). congruence.
    + intros H y [<-|Hy]; [assumption | apply IH; assumption].
    + intros H. apply IH. intros y Hy. apply H. right. assumption.
Qed.

Lemma length_filter_existsb {A} (f : A -> bool) (l : list A) :
  negb (Nat.eqb (length (List.filter f l)) 0) = existsb f l.
Proof.
  induction l as [|x l IH]; simpl; [reflexivity|].
  destruct (f x); simpl; [reflexivity | assumption].
Qed.

Lemma map_if_id {A} (t : A -> bool) (f : A -> A) (l : list A) :
  (forall x, In x l -> t x = false) -> map (fun x => if t x then f x else x) l = l.
Proof.
  induction l as [|x l IH]; simpl; intros H; [reflexivity|].
  rewrite (H x (or_introl eq_refl)). f_equal. apply IH. intros y Hy. apply H. right; assumption.
Qed.

(** With a key that no two rows share, the rows with the key of a row of
    the table are that row alone. *)
Lemma filter_unique_key {A K} `{EqDecision K} (key : A -> K) (l : list A) (x : A) :
  NoDup (key <$> l) -> In x l ->
  List.filter (fun y => bool_decide (key y = key x)) l = [x].
Proof.
  induction l as [|y l IH]; simpl; intros Hnd Hin; [contradiction|].
  apply NoDup_cons in Hnd as [Hy Hnd].
  destruct Hin as [->|Hin].
  - rewrite bool_decide_eq_true_2 by reflexivity. f_equal.
    apply filter_nil_iff. intros z Hz. apply bool_decide_eq_false_2. intros Heq.
    apply Hy. rewrite <- Heq. apply list_elem_of_fmap. exists z. split; [reflexivity|].
    apply list_elem_of_In. assumption.
  - rewrite bool_decide_eq_false_2; [apply IH; assumption|].
    intros Heq. apply Hy. rewrite Heq. apply list_elem_of_fmap. exists x. split; [reflexivity|].
    apply list_elem_of_In. assumption.
Qed.

(** ** Sorting *)

#[global] Instance descending_total {A} (key : A -> Z) : Total (descending key).
Proof. intros a b. unfold descending. lia. Qed.

#[global] Instance descending_trans {A} (key : A -> Z) : Transitive (descending key).
Proof. intros a b c. unfold descending. lia. Qed.

#[global] Instance ascending_total {A} (key : A -> Z) : Total (ascending key).
Proof. intros a b. unfold ascending. lia. Qed.

#[global] Instance ascending_trans {A} (key : A -> Z) : Transitive (ascending key).
Proof. intros a b c. unfold ascending. lia. Qed.

Lemma order_desc_sorted {A} (key : A -> Z) (rows : list A) :
  StronglySorted (descending key) (order_desc key rows).
Proof. apply StronglySorted_merge_sort; apply _. Qed.

Lemma order_desc_perm {A} (key : A -> Z) (rows : list A) : order_desc key rows ≡ₚ rows.
Proof. apply merge_sort_Permutation. Qed.

Lemma order_asc_sorted {A} (key : A -> Z) (rows : list A) :
  StronglySorted (ascending key) (order_asc key rows).
Proof. apply StronglySorted_merge_sort; apply _. Qed.

(** ** What a participant sees *)

Lemma in_own_conversation_intro (db : DB) (uid : uuid) (c : conversation) :
  In c (conversations db) -> is_owner_or_renter uid c = true ->
  in_own_conversation db uid (c_id c) = true.
Proof.
  intros Hin Hc. unfold in_own_conversation. apply existsb_exists.
  exists c. rewrite Nat.eqb_refl, Hc. auto.
Qed.

(** A participant sees every message of the conversation. *)
Lemma messages_of_participant (db : DB) (uid : uuid) (c : conversation) :
  In c (conversations db) -> is_owner_or_renter uid c = true ->
  messages_of (Authenticated uid) db (c_id c)
  = List.filter (fun m => (m_conversation_id m =? c_id c)%nat) (messages db).
Proof.
  intros Hin Hc. unfold messages_of, select_messages. rewrite filter_filter_andb.
  apply filter_ext. intros m. unfold messages_select; simpl.
  destruct (m_conversation_id m =? c_id c)%nat eqn:Hm; [|apply andb_false_r].
  apply Nat.eqb_eq in Hm. rewrite Hm, (in_own_conversation_intro db uid c Hin Hc).
  reflexivity.
Qed.

Lemma getUserConversations_rows (p : principal) (userId : uuid) (db : DB) :
  v_conversation <$> getUserConversations p userId db
  = order_desc c_last_message_at
      (List.filter (fun c => ((c_owner_id c =? userId)%nat || (c_renter_id c =? userId)%nat)
                             && negb (Nat.eqb (length (messages_of p db (c_id c))) 0))
                   (select_conversations p db)).
Proof.
  unfold getUserConversations. rewrite <- list_fmap_compose.
  apply list_fmap_id.
Qed.

(** ** [getUserConversations]: which conversations, in which order *)

(** C2, as stated, fails: the thread of [db_thread] has user 1 as its
    owner and no message, and [getUserConversations] leaves it out. *)
Lemma getUserConversations_omits_empty_thread :
  In thread (conversations db_thread)
  /\ c_owner_id thread = 1%nat
  /\ List.filter (fun m => (m_conversation_id m =? c_id thread)%nat) (messages db_thread) = []
  /\ getUserConversations (Authenticated 1) 1 db_thread = [].
Proof. repeat split; vm_compute; auto. Qed.

(** C2, amended: for the session of user [userId], [getUserConversations]
    returns exactly the conversations in which the user is the owner or
    the renter and that hold at least one message (the [messages!inner]
    join drops the others), each once, sorted by [last_message_at] in
    descending order. *)
Theorem getUserConversations_inner_sorted (userId : uuid) (db : DB) :
  let rows := v_conversation <$> getUserConversations (Authenticated userId) userId db in
  rows ≡ₚ List.filter
            (fun c => ((c_owner_id c =? userId)%nat || (c_renter_id c =? userId)%nat)
                      && existsb (fun m => (m_conversation_id m =? c_id c)%nat) (messages db))
            (conversations db)
  /\ StronglySorted (fun a b => c_last_message_at b <= c_last_message_at a) rows.
Proof.
  intros rows. subst rows. rewrite getUserConversations_rows. split.
  - rewrite order_desc_perm. unfold select_conversations. rewrite filter_filter_andb.
    erewrite filter_ext_in; [reflexivity|].
    intros c Hin. simpl.
    unfold conversations_select, policy, is_owner_or_renter.
    destruct ((c_owner_id c =? userId)%nat || (c_renter_id c =? userId)%nat) eqn:Hc;
      [|reflexivity].
    simpl. rewrite (messages_of_participant db userId c Hin Hc).
    apply length_filter_existsb.
  - apply order_desc_sorted.
Qed.

(** ** [getUserConversations]: the unread count *)

Lemma getUserConversations_In (p : principal) (userId : uuid) (db : DB)
    (v : conversation_view) :
  In v (getUserConversations p userId db) ->
  unread_count v = unreadCount p userId db (c_id (v_conversation v))
  /\ In (v_conversation v) (conversations db)
  /\ conversations_select p (v_conversation v) = true
  /\ ((c_owner_id (v_conversation v) =? userId)%nat
      || (c_renter_id (v_conversation v) =? userId)%nat) = true.
Proof.
  unfold getUserConversations. intros Hin. apply in_map_iff in Hin as (conv & <- & Hin).
  simpl. split; [reflexivity|].
  apply list_elem_of_In in Hin. rewrite order_desc_perm in Hin.
  apply list_elem_of_In, filter_In in Hin as [Hin Hf].
  apply filter_In in Hin as [Hin Hsel].
  apply andb_true_iff in Hf as [Hf _]. auto.
Qed.

(** The participant row of the user, as the user's own session reads
    it. *)
Lemma participant_of_own (db : DB) (cp : conversation_participant) :
  wf_db db -> In cp (conversation_participants db) ->
  participant_of (Authenticated (p_user_id cp)) (p_user_id cp) db (p_conversation_id cp)
  = Some cp.
Proof.
  intros Hwf Hin. unfold participant_of, select_conversation_participants.
  rewrite filter_filter_andb.
  erewrite filter_ext.
  - rewrite (filter_unique_key participant_key _ cp (wf_db_participants_key db Hwf) Hin).
    reflexivity.
  - intros cp'. unfold participants_select, policy, participant_key. simpl.
    rewrite (Nat.eqb_sym (p_user_id cp) (p_user_id cp')).
    destruct (Nat.eqb_spec (p_conversation_id cp') (p_conversation_id cp)) as [Hc|Hc],
             (Nat.eqb_spec (p_user_id cp') (p_user_id cp)) as [Hu|Hu]; simpl.
    + rewrite bool_decide_eq_true_2; congruence.
    + rewrite bool_decide_eq_false_2; congruence.
    + rewrite bool_decide_eq_false_2; congruence.
    + rewrite bool_decide_eq_false_2; congruence.
Qed.

(** C10: a conversation of the result whose participant row for the
    user cannot be fetched, or carries no [last_read_at], has
    [unread_count] 0, whatever messages it holds. *)
Theorem unread_count_without_last_read (p : principal) (userId : uuid) (db : DB)
    (v : conversation_view) :
  In v (getUserConversations p userId db) ->
  (participant_of p userId db (c_id (v_conversation v)) = None
   \/ exists cp, participant_of p userId db (c_id (v_conversation v)) = Some cp
                 /\ p_last_read_at cp = None) ->
  unread_count v = 0%nat.
Proof.
  intros Hin Hcp. apply getUserConversations_In in Hin as (-> & _).
  unfold unreadCount. destruct Hcp as [-> | (cp & -> & ->)]; reflexivity.
Qed.

Lemma unread_count_without_last_read_witness :
  let v := mk_conversation_view (mk_conversation 20 10 1 2 None 5000400 5 5000400)
                                [hello] (Some hello) 0 in
  In v (getUserConversations (Authenticated 2) 2 db_never_read)
  /\ (exists cp, participant_of (Authenticated 2) 2 db_never_read (c_id (v_conversation v))
                 = Some cp /\ p_last_read_at cp = None)
  /\ In hello (messages db_never_read) /\ m_sender_id hello <> 2%nat
  /\ unread_count v = 0%nat.
Proof.
  assert (Hin : In (mk_conversation_view (mk_conversation 20 10 1 2 None 5000400 5 5000400)
                                         [hello] (Some hello) 0)
                   (getUserConversations (Authenticated 2) 2 db_never_read))
    by (vm_compute; left; reflexivity).
  assert (Hcp : exists cp,
             participant_of (Authenticated 2) 2 db_never_read 20 = Some cp
             /\ p_last_read_at cp = None)
    by (eexists; split; vm_compute; reflexivity).
  split; [exact Hin|]. split; [exact Hcp|].
  split; [vm_compute; left; reflexivity|].
  split; [vm_compute; discriminate|].
  exact (unread_count_without_last_read (Authenticated 2) 2 db_never_read _ Hin
           (or_intror Hcp)).
Defined.

(** C6: for a user in their own session and a conversation of the
    result in which the user has a participant row with a
    [last_read_at], the reported unread count is the number of messages
    of that conversation sent by someone else and created strictly after
    [last_read_at]. *)
Theorem unread_count_counts_later_messages (userId : uuid) (db : DB)
    (v : conversation_view) (cp : conversation_participant) (last_read_at : timestamptz) :
  wf_db db ->
  In v (getUserConversations (Authenticated userId) userId db) ->
  In cp (conversation_participants db) ->
  p_conversation_id cp = c_id (v_conversation v) ->
  p_user_id cp = userId ->
  p_last_read_at cp = Some last_read_at ->
  unread_count v
  = length (List.filter
              (fun m => (m_conversation_id m =? c_id (v_conversation v))%nat
                        && negb (m_sender_id m =? userId)%nat
                        && (last_read_at <? m_created_at m))
              (messages db)).
Proof.
  intros Hwf Hin Hcp Hconv Huser Hread.
  apply getUserConversations_In in Hin as (-> & Hc & _ & Hmine).
  unfold unreadCount. subst userId. rewrite <- Hconv.
  rewrite (participant_of_own db cp Hwf Hcp), Hread.
  rewrite Hconv, (messages_of_participant db (p_user_id cp) _ Hc Hmine).
  rewrite filter_filter_andb. f_equal. apply filter_ext. intros m.
  rewrite andb_assoc. reflexivity.
Qed.

Lemma unread_count_counts_later_messages_witness :
  let v := mk_conversation_view (mk_conversation 20 10 1 2 None 5000400 5 5000400)
                                [hello] (Some hello) 1 in
  let cp := mk_conversation_participant 22 20 2 5 (Some 5) in
  wf_db db_chat
  /\ In v (getUserConversations (Authenticated 2) 2 db_chat)
  /\ In cp (conversation_participants db_chat)
  /\ unread_count v = 1%nat
  /\ unread_count v
     = length (List.filter
                 (fun m => (m_conversation_id m =? 20)%nat
                           && negb (m_sender_id m =? 2)%nat && (5 <? m_created_at m))
                 (messages db_chat)).
Proof.
  assert (Hwf : wf_db db_chat) by (apply (bool_decide_unpack _); vm_compute; exact I).
  assert (Hin : In (mk_conversation_view (mk_conversation 20 10 1 2 None 5000400 5 5000400)
                                         [hello] (Some hello) 1)
                   (getUserConversations (Authenticated 2) 2 db_chat))
    by (vm_compute; left; reflexivity).
  assert (Hcp : In (mk_conversation_participant 22 20 2 5 (Some 5))
                   (conversation_participants db_chat))
    by (vm_compute; right; left; reflexivity).
  split; [exact Hwf|]. split; [exact Hin|]. split; [exact Hcp|].
  split; [reflexivity|].
  exact (unread_count_counts_later_messages 2 db_chat _ _ 5 Hwf Hin Hcp
           eq_refl eq_refl eq_refl).
Defined.

(** ** [markAsRead] *)

Lemma fmap_map_if {A B} (h : A -> B) (t : A -> bool) (f : A -> A) (l : list A) :
  (forall x, h (f x) = h x) -> h <$> map (fun x => if t x then f x else x) l = h <$> l.
Proof.
  intros Hf. induction l as [|x l IH]; simpl; [reflexivity|].
  f_equal; [destruct (t x); auto | exact IH].
Qed.

(** Replacing the participant rows by rows with the same identifiers
    and the same (conversation, user) pairs keeps the constraints. *)
Lemma wf_db_set_participants (db : DB) (l : list conversation_participant) :
  wf_db db ->
  p_id <$> l = p_id <$> conversation_participants db ->
  participant_key <$> l = participant_key <$> conversation_participants db ->
  wf_db (set_conversation_participants l db).
Proof.
  unfold wf_db. intros Hwf Hid Hkey. decompose [and] Hwf. clear Hwf.
  repeat split; try assumption.
  - unfold conversation_participants_pkey. simpl. rewrite Hid. assumption.
  - unfold conversation_participants_key. simpl. rewrite Hkey. assumption.
  - unfold conversation_participants_fkey in *. simpl.
    apply (Forall_fmap participant_key
             (fun k => k.1 ∈ c_id <$> conversations db /\ k.2 ∈ users db)).
    rewrite Hkey. apply Forall_fmap. assumption.
Qed.

(** What [markAsRead] leaves behind: the rows of the pair that the
    session may update carry the client's time, nothing else changes. *)
Lemma markAsRead_spec (p : principal) (Date_now : Z) (conversationId userId : uuid) (db : DB) :
  wf_db db ->
  markAsRead p Date_now conversationId userId db
  = set_conversation_participants
      (map (fun cp => if (p_conversation_id cp =? conversationId)%nat
                         && (p_user_id cp =? userId)%nat
                         && participants_select p cp && participants_update p cp
                      then read_at (Date_now * 1000) cp else cp)
           (conversation_participants db))
      db.
Proof.
  intros Hwf. unfold markAsRead, update_conversation_participants. cbv zeta.
  match goal with
  | |- context [require (forallb ?f ?l) _] => assert (Hcheck : forallb f l = true)
  end.
  { apply forallb_forall. intros cp' Hin. apply in_map_iff in Hin as (cp & <- & Hin).
    apply filter_In in Hin as [_ Ht].
    apply andb_true_iff in Ht as [Ht Hu]. apply andb_true_iff in Ht as [_ Hs].
    apply andb_true_iff. split; [exact Hs | exact Hu]. }
  rewrite Hcheck. cbn [require bind].
  match goal with
  | |- context [check_constraints ?d] => assert (Hwf' : wf_db d)
  end.
  { apply wf_db_set_participants; [assumption| |]; apply fmap_map_if; reflexivity. }
  apply check_constraints_wf in Hwf'. rewrite Hwf'. reflexivity.
Qed.

Lemma markAsRead_wf (p : principal) (Date_now : Z) (conversationId userId : uuid) (db : DB) :
  wf_db db -> wf_db (markAsRead p Date_now conversationId userId db).
Proof.
  intros Hwf. rewrite markAsRead_spec by assumption.
  apply wf_db_set_participants; [assumption| |]; apply fmap_map_if; reflexivity.
Qed.

Lemma markAsRead_messages (p : principal) (Date_now : Z) (conversationId userId : uuid)
    (db : DB) :
  wf_db db -> messages (markAsRead p Date_now conversationId userId db) = messages db.
Proof. intros Hwf. rewrite markAsRead_spec by assumption. reflexivity. Qed.

Lemma messages_of_In (p : principal) (db : DB) (conversation_id : uuid) (m : message) :
  In m (messages_of p db conversation_id) ->
  In m (messages db) /\ m_conversation_id m = conversation_id.
Proof.
  unfold messages_of, select_messages. intros Hin.
  apply filter_In in Hin as [Hin Hc]. apply filter_In in Hin as [Hin _].
  apply Nat.eqb_eq in Hc. auto.
Qed.

Lemma markAsRead_unread_zero (p : principal) (Date_now : Z) (conversationId userId : uuid)
    (db : DB) :
  wf_db db ->
  (forall m, In m (messages db) -> m_conversation_id m = conversationId ->
             m_sender_id m <> userId -> m_created_at m <= Date_now * 1000) ->
  unreadCount p userId (markAsRead p Date_now conversationId userId db) conversationId
  = 0%nat.
Proof.
  intros Hwf Hold. unfold unreadCount.
  destruct (participant_of _ _ _ _) as [cp|] eqn:Hcp; [|reflexivity].
  assert (Hread : p_last_read_at cp = Some (Date_now * 1000)).
  { unfold participant_of in Hcp.
    destruct (List.filter _ _) as [|cp1 [|? ?]] eqn:Hf; simpl in Hcp; try discriminate.
    injection Hcp as ->.
    assert (Hin : In cp (cp :: nil)) by (left; reflexivity).
    rewrite <- Hf in Hin. apply filter_In in Hin as [Hin Hpair].
    unfold select_conversation_participants in Hin. apply filter_In in Hin as [Hin Hsel].
    rewrite markAsRead_spec in Hin by assumption. simpl in Hin.
    apply in_map_iff in Hin as (cp0 & Heq & _).
    destruct (_ && participants_update p cp0) eqn:Ht.
    - subst cp. reflexivity.
    - subst cp0. exfalso.
      assert (Hupd : participants_update p cp = true) by exact Hsel.
      rewrite Hpair, Hsel, Hupd in Ht. discriminate. }
  rewrite Hread. apply length_zero_iff_nil, filter_nil_iff. intros m Hm.
  apply messages_of_In in Hm as [Hm Hc].
  rewrite markAsRead_messages in Hm by assumption.
  destruct (Nat.eqb_spec (m_sender_id m) userId) as [Hs|Hs]; [reflexivity|].
  simpl. apply Z.ltb_ge. apply Hold; assumption.
Qed.

(** C7, as stated, fails: [markAsRead] writes the client's clock in
    whole milliseconds, the message carries the server's time.  In
    [db_chat] the owner's message was created at 5000400 microseconds;
    user 2 marks the thread as read with a clock that reads 5000
    milliseconds, and the message is still counted as unread. *)
Lemma markAsRead_leaves_unread :
  wf_db db_chat
  /\ unreadCount (Authenticated 2) 2 (markAsRead (Authenticated 2) 5000 20 2 db_chat) 20
     = 1%nat
  /\ messages (markAsRead (Authenticated 2) 5000 20 2 db_chat) = messages db_chat.
Proof.
  split; [apply (bool_decide_unpack _); vm_compute; exact I|].
  split; vm_compute; reflexivity.
Qed.

(** C7, amended: when no message of the conversation from another
    sender was created after the time that [markAsRead] writes, the
    unread count computed next, with no message inserted in between, is
    0; and it is 0 again after a second [markAsRead] whose clock reads
    no earlier. *)
Theorem markAsRead_then_unread_zero (p : principal) (Date_now Date_now' : Z)
    (conversationId userId : uuid) (db : DB) :
  wf_db db ->
  (forall m, In m (messages db) -> m_conversation_id m = conversationId ->
             m_sender_id m <> userId -> m_created_at m <= Date_now * 1000) ->
  Date_now <= Date_now' ->
  let db1 := markAsRead p Date_now conversationId userId db in
  let db2 := markAsRead p Date_now' conversationId userId db1 in
  unreadCount p userId db1 conversationId = 0%nat
  /\ unreadCount p userId db2 conversationId = 0%nat.
Proof.
  intros Hwf Hold Hle db1 db2. split.
  - apply markAsRead_unread_zero; assumption.
  - apply markAsRead_unread_zero.
    + apply markAsRead_wf. assumption.
    + intros m Hm Hc Hs. unfold db1 in Hm. rewrite markAsRead_messages in Hm by assumption.
      specialize (Hold m Hm Hc Hs). lia.
Qed.

Lemma markAsRead_then_unread_zero_witness :
  wf_db db_chat
  /\ (forall m, In m (messages db_chat) -> m_conversation_id m = 20%nat ->
                m_sender_id m <> 2%nat -> m_created_at m <= 5001 * 1000)
  /\ unreadCount (Authenticated 2) 2 db_chat 20 = 1%nat
  /\ unreadCount (Authenticated 2) 2 (markAsRead (Authenticated 2) 5001 20 2 db_chat) 20
     = 0%nat.
Proof.
  assert (Hwf : wf_db db_chat) by (apply (bool_decide_unpack _); vm_compute; exact I).
  assert (Hold : forall m, In m (messages db_chat) -> m_conversation_id m = 20%nat ->
                           m_sender_id m <> 2%nat -> m_created_at m <= 5001 * 1000).
  { intros m [<-|[]] _ _. vm_compute. discriminate. }
  split; [exact Hwf|]. split; [exact Hold|]. split; [vm_compute; reflexivity|].
  exact (proj1 (markAsRead_then_unread_zero (Authenticated 2) 5001 5002 20 2 db_chat
                  Hwf Hold ltac:(lia))).
Defined.

(** ** Message insertion and [update_conversation_last_message] *)

Lemma NoDup_fmap_eq {A K} (key : A -> K) (l : list A) (x y : A) :
  NoDup (key <$> l) -> In x l -> In y l -> key x = key y -> x = y.
Proof.
  induction l as [|z l IH]; simpl; intros Hnd Hx Hy Heq; [contradiction|].
  apply NoDup_cons in Hnd as [Hz Hnd].
  destruct Hx as [->|Hx], Hy as [->|Hy]; auto.
  - exfalso. apply Hz. rewrite Heq. apply list_elem_of_fmap. exists y.
    split; [reflexivity | apply list_elem_of_In; assumption].
  - exfalso. apply Hz. rewrite <- Heq. apply list_elem_of_fmap. exists x.
    split; [reflexivity | apply list_elem_of_In; assumption].
Qed.

Lemma update_conversations_Ok (p : principal) (filter : conversation -> bool)
    (set : conversation -> conversation) (db : DB) (changed : list conversation) (db' : DB) :
  update_conversations p filter set db = Ok (changed, db') ->
  wf_db db'
  /\ db' = set_conversations
             (map (fun c => if filter c && conversations_select p c
                               && conversations_update p c
                            then set c else c)
                  (conversations db))
             db.
Proof.
  unfold update_conversations. cbv zeta. intros H.
  bind_inv H. bind_inv H. injection H as _ <-.
  split; [|reflexivity]. eapply check_constraints_unit. eassumption.
Qed.

(** The steps of a message insertion that went through. *)
Lemma insert_message_Ok (p : principal) (now : timestamptz) (conversation_id sender_id : uuid)
    (text : content) (message_type : string) (metadata : json) (db : DB)
    (m : message) (db' : DB) :
  insert_message p now conversation_id sender_id text message_type metadata db = Ok (m, db') ->
  let stamp c := mk_conversation (c_id c) (c_item_id c) (c_owner_id c) (c_renter_id c)
                                 (c_rental_id c) now (c_created_at c) now in
  m = mk_message (gen_random_uuid db) conversation_id sender_id text message_type metadata
                 (JObj []) now
  /\ messages_insert p db m = true
  /\ wf_db (set_messages (messages db ++ [m]) db)
  /\ wf_db db'
  /\ messages db' = (messages db ++ [m])%list
  /\ conversations db'
     = map (fun c => if (c_id c =? conversation_id)%nat && conversations_select p c
                        && conversations_update p c
                     then stamp c else c)
           (conversations db).
Proof.
  unfold insert_message. cbv zeta. intros H.
  bind_inv H. apply require_Ok in Hstep.
  bind_inv H. apply check_constraints_unit in Hstep0.
  bind_inv H. injection H as <- <-.
  unfold update_conversation_last_message in Hstep1. bind_inv Hstep1.
  injection Hstep1 as <-. destruct a2 as [changed db2].
  apply update_conversations_Ok in Hstep2 as [Hwf ->].
  split; [reflexivity|]. split; [exact Hstep|]. split; [exact Hstep0|].
  split; [exact Hwf|]. split; reflexivity.
Qed.

(** The session that inserted a message may update the conversation
    the message belongs to. *)
Lemma sender_updates_conversation (p : principal) (db : DB) (m : message) (c : conversation) :
  conversations_pkey db ->
  messages_insert p db m = true ->
  In c (conversations db) -> c_id c = m_conversation_id m ->
  conversations_select p c && conversations_update p c = true.
Proof.
  intros Hpk Hins Hin Hid. unfold conversations_select, conversations_update.
  destruct p as [uid| |]; simpl in *; [|discriminate|reflexivity].
  apply andb_true_iff in Hins as [_ Hins]. unfold in_own_conversation in Hins.
  apply existsb_exists in Hins as (c0 & Hin0 & Hc0).
  apply andb_true_iff in Hc0 as [Hid0 Hc0]. apply Nat.eqb_eq in Hid0.
  assert (c0 = c) as -> by (eapply (NoDup_fmap_eq c_id); eauto; congruence).
  rewrite Hc0. reflexivity.
Qed.

Lemma insert_message_stamps (p : principal) (now : timestamptz)
    (conversation_id sender_id : uuid) (text : content) (message_type : string)
    (metadata : json) (db : DB) (m : message) (db' : DB) :
  insert_message p now conversation_id sender_id text message_type metadata db = Ok (m, db') ->
  m_created_at m = now /\ m_conversation_id m = conversation_id
  /\ In m (messages db')
  /\ (exists c, In c (conversations db') /\ c_id c = conversation_id)
  /\ (forall c, In c (conversations db') -> c_id c = conversation_id ->
                c_last_message_at c = now /\ c_updated_at c = now).
Proof.
  intros H. apply insert_message_Ok in H as (Hm & Hins & Hwf1 & Hwf & Hmsgs & Hconvs).
  assert (Hstamped : forall c, In c (conversations db') -> c_id c = conversation_id ->
                               c_last_message_at c = now /\ c_updated_at c = now).
  { intros c Hin Hid. rewrite Hconvs in Hin. apply in_map_iff in Hin as (c0 & Heq & Hin0).
    assert (Hid0 : c_id c0 = conversation_id).
    { destruct (_ && conversations_update p c0) in Heq; subst c; assumption. }
    assert (Hmay : conversations_select p c0 && conversations_update p c0 = true).
    { apply (sender_updates_conversation p db m c0); try assumption.
      - apply wf_db_conversations_pkey in Hwf1. exact Hwf1.
      - subst m. simpl. assumption. }
    apply andb_true_iff in Hmay as [Hsel Hupd].
    rewrite Hid0, Nat.eqb_refl, Hsel, Hupd in Heq. subst c. simpl. auto. }
  subst m. simpl. split; [reflexivity|]. split; [reflexivity|].
  split; [|split; [|exact Hstamped]].
  - rewrite Hmsgs. apply in_or_app. right. left. reflexivity.
  - apply wf_db_messages_fkey in Hwf1. unfold messages_fkey in Hwf1. simpl in Hwf1.
    apply Forall_app in Hwf1 as [_ Hnew]. apply Forall_singleton in Hnew as [Hfk _].
    simpl in Hfk. apply list_elem_of_fmap in Hfk as (c0 & Hid0 & Hin0).
    apply list_elem_of_In in Hin0.
    exists (if (c_id c0 =? conversation_id)%nat && conversations_select p c0
               && conversations_update p c0
            then mk_conversation (c_id c0) (c_item_id c0) (c_owner_id c0) (c_renter_id c0)
                                 (c_rental_id c0) now (c_created_at c0) now
            else c0).
    split.
    + rewrite Hconvs. apply in_map_iff. exists c0. split; [reflexivity | assumption].
    + destruct (_ && conversations_update p c0); simpl; congruence.
Qed.

Lemma insert_messages_app (qs : list message_request) (q : message_request) (db : DB) :
  insert_messages (qs ++ [q])%list db
  = do rs <- insert_messages qs db;
    do r <- insert_message (q_session q) (q_now q) (q_conversation_id q) (q_sender_id q)
              (q_text q) (q_message_type q) (q_metadata q) (snd rs);
    Ok ((fst rs ++ [fst r])%list, snd r).
Proof.
  revert db. induction qs as [|q0 qs IH]; intros db; simpl.
  - destruct (insert_message _ _ _ _ _ _ _ db) as [[m db1]|e]; reflexivity.
  - destruct (insert_message _ _ _ _ _ _ _ db) as [[m0 db0]|e]; simpl; [|reflexivity].
    rewrite IH. destruct (insert_messages qs db0) as [[ms db1]|e]; simpl; [|reflexivity].
    destruct (insert_message _ _ _ _ _ _ _ db1) as [[m db2]|e]; reflexivity.
Qed.

(** C4: after each message insert of any sequence of inserts, the
    conversation of the message just inserted has [last_message_at] and
    [updated_at] equal to that message's creation time. *)
Theorem last_message_at_follows_insert (qs : list message_request) (q : message_request)
    (db : DB) (ms : list message) (db' : DB) :
  insert_messages (qs ++ [q])%list db = Ok (ms, db') ->
  exists m,
    last ms = Some m /\ In m (messages db')
    /\ m_conversation_id m = q_conversation_id q
    /\ (exists c, In c (conversations db') /\ c_id c = m_conversation_id m)
    /\ (forall c, In c (conversations db') -> c_id c = m_conversation_id m ->
                  c_last_message_at c = m_created_at m
                  /\ c_updated_at c = m_created_at m).
Proof.
  rewrite insert_messages_app. intros H.
  bind_inv H. destruct a as [ms0 db0]. bind_inv H. destruct a as [m db1].
  injection H as <- <-. simpl in *.
  apply insert_message_stamps in Hstep0 as (Hnow & Hconv & Hin & Hex & Hall).
  exists m. rewrite last_snoc, Hnow, Hconv. auto.
Qed.

Lemma last_message_at_follows_insert_witness :
  let qs := [mk_message_request (Authenticated 1) 100 20 1 (Text "Hello") "text" (JObj [])] in
  let q := mk_message_request (Authenticated 2) 200 20 2 (Text "Hi") "text" (JObj []) in
  exists ms db',
    insert_messages (qs ++ [q])%list db_thread = Ok (ms, db')
    /\ c_last_message_at <$> conversations db' = [200]
    /\ exists m, last ms = Some m /\ m_created_at m = 200
                 /\ forall c, In c (conversations db') -> c_id c = m_conversation_id m ->
                              c_last_message_at c = m_created_at m
                              /\ c_updated_at c = m_created_at m.
Proof.
  cbv zeta.
  destruct (insert_messages
              ([mk_message_request (Authenticated 1) 100 20 1 (Text "Hello") "text" (JObj [])]
               ++ [mk_message_request (Authenticated 2) 200 20 2 (Text "Hi") "text" (JObj [])])%list
              db_thread) as [[ms db']|e] eqn:Hrun; [|vm_compute in Hrun; discriminate].
  exists ms, db'. split; [reflexivity|].
  destruct (last_message_at_follows_insert _ _ _ _ _ Hrun) as (m & Hlast & _ & _ & _ & Hall).
  vm_compute in Hrun. injection Hrun as <- <-.
  split; [reflexivity|].
  exists m. split; [exact Hlast|]. split; [|exact Hall].
  vm_compute in Hlast. injection Hlast as <-. reflexivity.
Defined.

(** ** Conversation insertion and [create_conversation_participants] *)

Lemma insert_conversation_participant_Ok (p : principal) (now : timestamptz)
    (conversation_id user_id : uuid) (db db' : DB) :
  insert_conversation_participant p now conversation_id user_id db = Ok db' ->
  ((conversation_id, user_id) ∈ participant_key <$> conversation_participants db /\ db' = db)
  \/ (((conversation_id, user_id) ∉ participant_key <$> conversation_participants db)
      /\ db' = set_conversation_participants
                 (conversation_participants db
                  ++ [new_participant db now conversation_id user_id]) db).
Proof.
  unfold insert_conversation_participant. cbv zeta. intros H.
  bind_inv H. unfold participant_key at 1 in H. simpl in H.
  case_bool_decide as Hkey.
  - injection H as <-. left. auto.
  - bind_inv H. injection H as <-. right. auto.
Qed.

(** [ON CONFLICT DO NOTHING]: for a session that the insert policy
    admits, a pair that is present makes the insert a no-op. *)
Lemma insert_conversation_participant_conflict (p : principal) (now : timestamptz)
    (conversation_id user_id : uuid) (db : DB) :
  policy p (fun uid => (uid =? user_id)%nat && in_own_conversation db uid conversation_id)
  = true ->
  (conversation_id, user_id) ∈ participant_key <$> conversation_participants db ->
  insert_conversation_participant p now conversation_id user_id db = Ok db.
Proof.
  intros Hpol Hkey. unfold insert_conversation_participant. cbv zeta.
  unfold participants_insert. simpl. rewrite Hpol. simpl.
  unfold participant_key at 1. simpl.
  rewrite bool_decide_eq_true_2 by assumption. reflexivity.
Qed.

(** The number of rows of a pair that is present is one. *)
Lemma participant_pair_once (db : DB) (conversation_id user_id : uuid) :
  wf_db db ->
  (conversation_id, user_id) ∈ participant_key <$> conversation_participants db ->
  length (List.filter (fun cp => (p_conversation_id cp =? conversation_id)%nat
                                 && (p_user_id cp =? user_id)%nat)
                      (conversation_participants db)) = 1%nat.
Proof.
  intros Hwf Hkey. apply list_elem_of_fmap in Hkey as (cp & Hk & Hin).
  apply list_elem_of_In in Hin.
  erewrite filter_ext.
  - rewrite (filter_unique_key participant_key _ cp (wf_db_participants_key db Hwf) Hin).
    reflexivity.
  - intros cp'. unfold participant_key in *. injection Hk as -> ->.
    destruct (Nat.eqb_spec (p_conversation_id cp') (p_conversation_id cp)) as [Hc|Hc],
             (Nat.eqb_spec (p_user_id cp') (p_user_id cp)) as [Hu|Hu]; simpl.
    + rewrite bool_decide_eq_true_2; congruence.
    + rewrite bool_decide_eq_false_2; congruence.
    + rewrite bool_decide_eq_false_2; congruence.
    + rewrite bool_decide_eq_false_2; congruence.
Qed.

(** No participant row refers to an identifier that is still free. *)
Lemma no_participant_of_fresh (db : DB) (cp : conversation_participant) :
  wf_db db -> In cp (conversation_participants db) ->
  p_conversation_id cp <> gen_random_uuid db.
Proof.
  intros Hwf Hin Heq. apply wf_db_participants_fkey in Hwf.
  unfold conversation_participants_fkey in Hwf. rewrite Forall_forall in Hwf.
  apply list_elem_of_In in Hin. destruct (Hwf cp Hin) as [Hfk _].
  rewrite Heq in Hfk. exact (gen_random_uuid_conversations db Hfk).
Qed.

(** The participant rows after a conversation insertion that went
    through: the old rows, then one for the owner, then one for the
    renter unless the renter is the owner. *)
Lemma insert_conversation_Ok (p : principal) (now : timestamptz)
    (item_id owner_id renter_id : uuid) (db : DB) (c : conversation) (db' : DB) :
  wf_db db ->
  insert_conversation p now item_id owner_id renter_id db = Ok (c, db') ->
  c = mk_conversation (gen_random_uuid db) item_id owner_id renter_id None now now now
  /\ conversations db' = (conversations db ++ [c])%list
  /\ exists o r,
       p_user_id o = owner_id /\ p_conversation_id o = c_id c
       /\ p_user_id r = renter_id /\ p_conversation_id r = c_id c
       /\ conversation_participants db'
          = (conversation_participants db
             ++ if (owner_id =? renter_id)%nat then [o] else [o; r])%list.
Proof.
  intros Hwf. unfold insert_conversation. cbv zeta. intros H.
  bind_inv H. bind_inv H. bind_inv H. injection H as <- <-.
  unfold create_conversation_participants in Hstep1.
  bind_inv Hstep1. bind_inv Hstep1. injection Hstep1 as <-.
  cbn [c_id c_owner_id c_renter_id] in *.
  set (id := gen_random_uuid db) in *.
  set (db1 := set_conversations _ db) in *.
  assert (Hfresh : forall u, (id, u) ∉ participant_key <$> conversation_participants db).
  { intros u Hk. apply list_elem_of_fmap in Hk as (cp & Hk & Hin).
    injection Hk as Hk _. apply list_elem_of_In in Hin.
    apply (no_participant_of_fresh db cp Hwf Hin). symmetry. exact Hk. }
  split; [reflexivity|].
  apply insert_conversation_participant_Ok in Hstep2 as [[Hk _] | [_ ->]];
    [exfalso; exact (Hfresh _ Hk)|].
  set (o := new_participant db1 now id owner_id) in *.
  apply insert_conversation_participant_Ok in Hstep3 as [[Hk ->] | [Hk ->]].
  - split; [reflexivity|]. exists o, o.
    cbn [conversation_participants set_conversation_participants] in Hk.
    rewrite fmap_app, elem_of_app in Hk. destruct Hk as [Hk|Hk];
      [exfalso; exact (Hfresh _ Hk)|].
    cbn in Hk. apply list_elem_of_singleton in Hk. injection Hk as Hk.
    rewrite Hk, Nat.eqb_refl. subst renter_id. repeat split.
  - split; [reflexivity|].
    match goal with
    | |- context [new_participant ?d now id renter_id] =>
        exists o, (new_participant d now id renter_id)
    end.
    destruct (Nat.eqb_spec owner_id renter_id) as [Heq|Hne].
    + exfalso. apply Hk.
      cbn [conversation_participants set_conversation_participants].
      rewrite fmap_app, elem_of_app. right. cbn.
      apply list_elem_of_singleton. unfold o, new_participant, participant_key. cbn.
      congruence.
    + cbn [conversation_participants set_conversation_participants].
      rewrite <- app_assoc. repeat split.
Qed.

(** C5, as stated, fails.  A conversation whose owner is also its
    renter gets one participant row, not two; and a present pair makes
    the insert a no-op only for a session that the insert policy admits:
    for another user's session it is an error. *)
Lemma one_participant_when_owner_rents :
  (exists c db',
     insert_conversation (Authenticated 1) 5 10 1 1 db_listed = Ok (c, db')
     /\ length (List.filter (fun cp => (p_conversation_id cp =? c_id c)%nat)
                            (conversation_participants db')) = 1%nat)
  /\ (20%nat, 1%nat) ∈ participant_key <$> conversation_participants db_thread
  /\ insert_conversation_participant (Authenticated 2) 6 20 1 db_thread
     = Err insufficient_privilege.
Proof.
  split; [|split].
  - eexists _, _. split; vm_compute; reflexivity.
  - apply (bool_decide_unpack _). vm_compute. exact I.
  - vm_compute. reflexivity.
Qed.

(** C5, amended: a conversation insertion that goes through creates
    one participant row for the owner and one for the renter, which are
    two rows when owner and renter differ and a single row when they are
    the same user; and for a session that the insert policy admits,
    inserting a participant for a pair that is present, any number of
    times, is a no-op, not an error, and leaves exactly one row of the
    pair. *)
Theorem conversation_insert_creates_participants (p : principal) (now : timestamptz)
    (item_id owner_id renter_id : uuid) (db : DB) (c : conversation) (db' : DB) :
  wf_db db ->
  insert_conversation p now item_id owner_id renter_id db = Ok (c, db') ->
  p_user_id <$> List.filter (fun cp => (p_conversation_id cp =? c_id c)%nat)
                            (conversation_participants db')
  = (if (owner_id =? renter_id)%nat then [owner_id] else [owner_id; renter_id])
  /\ forall (q : principal) (t : timestamptz) (n : nat) (db0 : DB)
            (conversation_id user_id : uuid),
       wf_db db0 ->
       (conversation_id, user_id) ∈ participant_key <$> conversation_participants db0 ->
       policy q (fun uid => (uid =? user_id)%nat
                            && in_own_conversation db0 uid conversation_id) = true ->
       insert_conversation_participant_times n q t conversation_id user_id db0 = Ok db0
       /\ length (List.filter (fun cp => (p_conversation_id cp =? conversation_id)%nat
                                         && (p_user_id cp =? user_id)%nat)
                              (conversation_participants db0)) = 1%nat.
Proof.
  intros Hwf Hins. split.
  - apply insert_conversation_Ok in Hins
      as (Hc & _ & o & r & Ho & Hoc & Hr & Hrc & ->); [|assumption].
    rewrite List.filter_app.
    assert (Hold : List.filter (fun cp => (p_conversation_id cp =? c_id c)%nat)
                               (conversation_participants db) = []).
    { apply filter_nil_iff. intros cp Hin. apply Nat.eqb_neq.
      rewrite Hc. simpl. apply no_participant_of_fresh; assumption. }
    rewrite Hold. simpl.
    destruct (owner_id =? renter_id)%nat; simpl;
      rewrite ?Hoc, ?Hrc, ?Nat.eqb_refl; simpl; congruence.
  - intros q t n db0 conversation_id user_id Hwf0 Hkey Hpol. split.
    + induction n as [|n IH]; simpl; [reflexivity|].
      rewrite insert_conversation_participant_conflict by assumption. exact IH.
    + apply participant_pair_once; assumption.
Qed.

Lemma conversation_insert_creates_participants_witness :
  wf_db db_listed
  /\ exists c db',
       insert_conversation TableOwner 5 10 1 2 db_listed = Ok (c, db')
       /\ p_user_id <$> List.filter (fun cp => (p_conversation_id cp =? c_id c)%nat)
                                    (conversation_participants db')
          = [1; 2]%nat
       /\ insert_conversation_participant_times 3 (Authenticated 2) 9 (c_id c) 2 db' = Ok db'.
Proof.
  assert (Hwf : wf_db db_listed) by (apply (bool_decide_unpack _); vm_compute; exact I).
  split; [exact Hwf|].
  destruct (insert_conversation TableOwner 5 10 1 2 db_listed) as [[c db']|e] eqn:Hins;
    [|vm_compute in Hins; discriminate].
  exists c, db'. split; [reflexivity|].
  destruct (conversation_insert_creates_participants _ _ _ _ _ _ _ _ Hwf Hins)
    as [Hrows Hagain].
  split; [exact Hrows|].
  vm_compute in Hins. injection Hins as <- <-.
  refine (proj1 (Hagain (Authenticated 2) 9 3%nat _ 11%nat 2%nat _ _ _)).
  - apply (bool_decide_unpack _). vm_compute. exact I.
  - apply (bool_decide_unpack _). vm_compute. exact I.
  - vm_compute. reflexivity.
Defined.

(** ** [getOrCreateConversation] *)

Lemma require_false (e : pg_error) : require false e = Err e.
Proof. reflexivity. Qed.

(** An insert for a triple that has a row fails on
    [UNIQUE(item_id, owner_id, renter_id)]. *)
Lemma insert_conversation_duplicate (p : principal) (now : timestamptz)
    (item_id owner_id renter_id : uuid) (db : DB) :
  wf_db db ->
  policy p (fun uid => (owner_id =? uid)%nat || (renter_id =? uid)%nat) = true ->
  (item_id, owner_id, renter_id) ∈ conversation_key <$> conversations db ->
  insert_conversation p now item_id owner_id renter_id db
  = Err (unique_violation "conversations_item_id_owner_id_renter_id_key").
Proof.
  intros Hwf Hpol Hkey. unfold insert_conversation. cbv zeta.
  unfold conversations_insert, is_owner_or_renter. cbn [c_owner_id c_renter_id].
  rewrite Hpol. cbn [require bind].
  unfold wf_db in Hwf. decompose [and] Hwf. clear Hwf.
  unfold check_constraints.
  rewrite (bool_decide_eq_true_2 (clothing_items_pkey _)) by assumption.
  rewrite (bool_decide_eq_true_2 (clothing_items_fkey _)) by assumption.
  rewrite (bool_decide_eq_true_2 (rentals_pkey _)) by assumption.
  rewrite (bool_decide_eq_true_2 (rentals_fkey _)) by assumption.
  rewrite (bool_decide_eq_true_2 (rentals_check_dates _)) by assumption.
  cbn [require bind].
  rewrite (bool_decide_eq_true_2 (conversations_pkey _)).
  2:{ unfold conversations_pkey in *. cbn [conversations set_conversations].
      rewrite fmap_app. apply NoDup_app. split; [assumption|]. split.
      - intros id Hold Hnew. cbn in Hnew. apply list_elem_of_singleton in Hnew. subst id.
        exact (gen_random_uuid_conversations db Hold).
      - apply NoDup_singleton. }
  rewrite (bool_decide_eq_false_2 (conversations_key _)).
  2:{ unfold conversations_key. cbn [conversations set_conversations].
      rewrite fmap_app. intros Hnd. apply NoDup_app in Hnd as (_ & Hdisj & _).
      apply (Hdisj _ Hkey). cbn. apply list_elem_of_singleton. reflexivity. }
  reflexivity.
Qed.

(** C1, as stated, fails.  User 2 looks the thread up in [db_listed]
    and finds none; before the insert another session commits the
    thread; the insert fails on the uniqueness constraint and the method
    answers [null], although the row is there. *)
Lemma getOrCreateConversation_race_returns_null :
  (exists c, In c (conversations (other_session db_listed))
             /\ conversation_key c = (10, 1, 2)%nat)
  /\ insert_conversation (Authenticated 2) 7 10 1 2 (other_session db_listed)
     = Err (unique_violation "conversations_item_id_owner_id_renter_id_key")
  /\ getOrCreateConversation (Authenticated 2) 7 other_session 10 1 2 db_listed
     = (None, other_session db_listed).
Proof.
  split; [|split].
  - eexists. split; [vm_compute; left; reflexivity | reflexivity].
  - vm_compute. reflexivity.
  - vm_compute. reflexivity.
Qed.

(** C1, amended: when the lookup finds no row and the insert then fails
    because a row for the triple exists by now, the caller being the
    owner or the renter, [getOrCreateConversation] catches the
    uniqueness violation and answers [null]; it does not fetch the row
    again, and the database is left as the other session committed
    it. *)
Theorem getOrCreateConversation_duplicate_is_null (uid : uuid) (now : timestamptz)
    (interleaved : DB -> DB) (itemId ownerId renterId : uuid) (db : DB) :
  wf_db (interleaved db) ->
  uid = ownerId \/ uid = renterId ->
  List.filter (fun c => (c_item_id c =? itemId)%nat && (c_owner_id c =? ownerId)%nat
                        && (c_renter_id c =? renterId)%nat)
              (select_conversations (Authenticated uid) db) = [] ->
  (itemId, ownerId, renterId) ∈ conversation_key <$> conversations (interleaved db) ->
  insert_conversation (Authenticated uid) now itemId ownerId renterId (interleaved db)
  = Err (unique_violation "conversations_item_id_owner_id_renter_id_key")
  /\ getOrCreateConversation (Authenticated uid) now interleaved itemId ownerId renterId db
     = (None, interleaved db).
Proof.
  intros Hwf Hcaller Hnone Hkey.
  assert (Hins : insert_conversation (Authenticated uid) now itemId ownerId renterId
                   (interleaved db)
                 = Err (unique_violation "conversations_item_id_owner_id_renter_id_key")).
  { apply insert_conversation_duplicate; try assumption. simpl.
    apply orb_true_iff. destruct Hcaller as [->| ->]; [left | right]; apply Nat.eqb_refl. }
  split; [exact Hins|].
  unfold getOrCreateConversation. rewrite Hnone. simpl. rewrite Hins. reflexivity.
Qed.

Lemma getOrCreateConversation_duplicate_is_null_witness :
  wf_db (other_session db_listed)
  /\ List.filter (fun c => (c_item_id c =? 10)%nat && (c_owner_id c =? 1)%nat
                           && (c_renter_id c =? 2)%nat)
                 (select_conversations (Authenticated 2) db_listed) = []
  /\ (10, 1, 2)%nat ∈ conversation_key <$> conversations (other_session db_listed)
  /\ getOrCreateConversation (Authenticated 2) 7 other_session 10 1 2 db_listed
     = (None, other_session db_listed).
Proof.
  assert (Hwf : wf_db (other_session db_listed))
    by (apply (bool_decide_unpack _); vm_compute; exact I).
  assert (Hkey : (10, 1, 2)%nat ∈ conversation_key <$> conversations (other_session db_listed))
    by (apply (bool_decide_unpack _); vm_compute; exact I).
  split; [exact Hwf|]. split; [reflexivity|]. split; [exact Hkey|].
  exact (proj2 (getOrCreateConversation_duplicate_is_null 2 7 other_session 10 1 2 db_listed
                  Hwf (or_intror eq_refl) eq_refl Hkey)).
Defined.

(** ** Sessions outside a conversation *)

















(** ** The rental request *)

(** In the session of an authenticated user, the insert of a
    conversation between two different users never goes through: the
    trigger inserts a participant row for each of them, and the insert
    policy of [conversation_participants] admits only the row of the
    session's own user. *)
Lemma insert_conversation_two_parties (uid : uuid) (now : timestamptz)
    (item_id owner_id renter_id : uuid) (db : DB) :
  owner_id <> renter_id ->
  exists e, insert_conversation (Authenticated uid) now item_id owner_id renter_id db = Err e.
Proof.
  intros Hne. unfold insert_conversation. cbv zeta.
  destruct (require _ _) as [[]|e]; [|eauto]. cbn [bind].
  destruct (check_constraints _) as [[]|e]; [|eauto]. cbn [bind].
  unfold create_conversation_participants. cbn [c_id c_owner_id c_renter_id].
  destruct (Nat.eqb_spec uid owner_id) as [->|Huid].
  - destruct (insert_conversation_participant _ _ _ owner_id _) as [db1|e]; [|eauto].
    cbn [bind]. unfold insert_conversation_participant. cbv zeta.
    unfold participants_insert. cbn [policy p_user_id].
    rewrite (proj2 (Nat.eqb_neq owner_id renter_id) Hne). simpl. eauto.
  - unfold insert_conversation_participant at 1. cbv zeta.
    unfold participants_insert. cbn [policy p_user_id].
    rewrite (proj2 (Nat.eqb_neq uid owner_id) Huid). simpl. eauto.
Qed.

(** What an insert of a rental that went through wrote. *)
Lemma insert_rental_Ok (p : principal) (now : timestamptz) (item_id renter_id owner_id : uuid)
    (start_date end_date : string) (total_price : option number) (status : rental_status)
    (db db' : DB) :
  insert_rental p now item_id renter_id owner_id start_date end_date total_price status db
  = Ok db' ->
  exists total,
    total_price = Some total
    /\ db' = set_rentals
               (rentals db ++ [mk_rental (gen_random_uuid db) item_id renter_id owner_id
                                         start_date end_date total status now])%list db
    /\ wf_db db'.
Proof.
  unfold insert_rental. cbv zeta. intros H.
  bind_inv H. bind_inv H. bind_inv H.
  destruct total_price as [total|]; [|discriminate]. injection Hstep1 as <-.
  bind_inv H. injection H as <-.
  exists total. split; [reflexivity|]. split; [reflexivity|].
  eapply check_constraints_unit. eassumption.
Qed.

(** So a renter whose thread with the owner does not exist yet sends no
    message with the rental request. *)
Lemma handleSubmit_without_thread (item : clothing_item) (user_id : uuid)
    (now1 now2 now3 : timestamptz) (f : form) (db : DB) :
  user_id <> i_owner_id item ->
  (forall c, In c (conversations db) ->
             conversation_key c <> (i_id item, i_owner_id item, user_id)) ->
  messages (snd (handleSubmit item (Some user_id) now1 now2 now3 id f db)) = messages db
  /\ conversations (snd (handleSubmit item (Some user_id) now1 now2 now3 id f db))
     = conversations db.
Proof.
  intros Hne Hnone. unfold handleSubmit.
  destruct (totalPrice f <=? 0)%number; [auto|].
  destruct (insert_rental _ _ _ _ _ _ _ _ _ db) as [db1|e] eqn:Hrent; [|auto].
  assert (Hsame : messages db1 = messages db /\ conversations db1 = conversations db).
  { apply insert_rental_Ok in Hrent as (total & _ & -> & _). auto. }
  destruct Hsame as [Hm Hc].
  unfold getOrCreateConversation.
  assert (Hfind : List.filter
                    (fun c => (c_item_id c =? i_id item)%nat
                              && (c_owner_id c =? i_owner_id item)%nat
                              && (c_renter_id c =? user_id)%nat)
                    (select_conversations (Authenticated user_id) db1) = []).
  { apply filter_nil_iff. intros c Hin. unfold select_conversations in Hin.
    apply filter_In in Hin as [Hin _]. rewrite Hc in Hin. specialize (Hnone c Hin).
    unfold conversation_key in Hnone.
    destruct (Nat.eqb_spec (c_item_id c) (i_id item)),
             (Nat.eqb_spec (c_owner_id c) (i_owner_id item)),
             (Nat.eqb_spec (c_renter_id c) user_id); simpl; congruence. }
  rewrite Hfind. cbn [single].
  destruct (insert_conversation_two_parties user_id now2 (i_id item) (i_owner_id item)
              user_id db1 (not_eq_sym Hne)) as [e He].
  cbv [id]. rewrite !He. simpl. auto.
Qed.

(** The scenario runs on any engine: its dates are in the form that the
    language itself reads. *)
Section scenario.
Context `{Engine}.

(** C9 on the scenario.  The price is 200 and the rental is stored as
    pending.  In [db_listed], where the renter has no thread with the
    owner yet, the request reports success and stores the rental, but no
    conversation and no message: the conversation insert is rejected.
    In [db_thread], where the thread exists, the [rental_request]
    message is appended to it, its metadata holding the dates and the
    price under [rental_details]. *)
Theorem rental_request_scenario :
  totalPrice request_form = 200
  /\ handleSubmit jacket (Some 2%nat) 1000 2000 3000 id request_form db_listed
     = (toast_success,
        mk_DB [1; 2; 3]%nat [jacket]
              [mk_rental 11 10 2 1 "2024-06-01" "2024-06-03" 200 pending 1000]
              [] [] [])
  /\ insert_conversation (Authenticated 2) 2000 10 1 2
       (set_rentals [mk_rental 11 10 2 1 "2024-06-01" "2024-06-03" 200 pending 1000] db_listed)
     = Err insufficient_privilege
  /\ rentals (snd (handleSubmit jacket (Some 2%nat) 1000 2000 3000 id request_form db_thread))
     = [mk_rental 23 10 2 1 "2024-06-01" "2024-06-03" 200 pending 1000]
  /\ (exists m,
        messages (snd (handleSubmit jacket (Some 2%nat) 1000 2000 3000 id request_form
                         db_thread)) = [m]
        /\ m_conversation_id m = c_id thread /\ m_sender_id m = 2%nat
        /\ m_message_type m = "rental_request"
        /\ json_get "rental_details" (m_metadata m)
           = Some (JObj [("start_date", JStr "2024-06-01");
                         ("end_date", JStr "2024-06-03");
                         ("total_price", JNum 200)])
        /\ json_get "total_price" (m_metadata m) = None).
Proof.
  split; [reflexivity|]. split; [vm_compute; reflexivity|].
  split; [vm_compute; reflexivity|]. split; [vm_compute; reflexivity|].
  eexists. split; [vm_compute; reflexivity|]. repeat split.
Qed.

End scenario.

(** ** Subscriptions and [cleanup] *)

(** [cleanup] leaves joined exactly the channels that the map of the
    service does not hold. *)
Lemma cleanup_channels (rt : Runtime) (s : topic) :
  s ∈ channels (cleanup rt)
  <-> s ∈ channels rt /\ forall k, subscriptions rt !! k <> Some s.
Proof.
  unfold cleanup. cbn [channels].
  apply (map_fold_weak_ind
           (fun (r : gset topic) (m : gmap uuid topic) =>
              s ∈ r <-> s ∈ channels rt /\ forall k, m !! k <> Some s)).
  - split; [intros H; split; [exact H|] | intros [H _]; exact H].
    intros k. rewrite lookup_empty. discriminate.
  - intros i x m r Hi IH. unfold unsubscribe.
    rewrite elem_of_difference, elem_of_singleton, IH. split.
    + intros [[Hs Hm] Hx]. split; [exact Hs|]. intros k.
      destruct (decide (i = k)) as [->|Hik].
      * rewrite lookup_insert_eq. congruence.
      * rewrite lookup_insert_ne by exact Hik. apply Hm.
    + intros [Hs Hm]. split; [split; [exact Hs|]|].
      * intros k Hk. apply (Hm k).
        destruct (decide (i = k)) as [->|Hik]; [congruence|].
        rewrite lookup_insert_ne by exact Hik. exact Hk.
      * intros ->. apply (Hm i). rewrite lookup_insert_eq. reflexivity.
Qed.

Lemma cleanup_subscriptions (rt : Runtime) : subscriptions (cleanup rt) = ∅.
Proof. reflexivity. Qed.

(** A second [cleanup] changes nothing. *)
Lemma cleanup_idempotent (rt : Runtime) : cleanup (cleanup rt) = cleanup rt.
Proof. unfold cleanup at 1. rewrite cleanup_subscriptions, map_fold_empty. reflexivity. Qed.

Lemma handed_out_step (rt : Runtime) (a : action) : handed_out rt -> handed_out (step rt a).
Proof.
  intros Hm. destruct a as [conversationId|userId|h|]; simpl.
  - intros k s. simpl. destruct (decide (conversationId = k)) as [->|Hk].
    + rewrite lookup_insert_eq. intros [= <-]. reflexivity.
    + rewrite lookup_insert_ne by exact Hk. apply Hm.
  - exact Hm.
  - destruct h as [conversationId subscription|subscription]; simpl.
    + intros k s Hs. simpl in Hs. apply lookup_delete_Some in Hs as [_ Hs].
      exact (Hm k s Hs).
    + exact Hm.
  - intros k s. simpl. rewrite lookup_empty. discriminate.
Qed.

Lemma handed_out_run (actions : list action) (rt : Runtime) :
  handed_out rt -> handed_out (run actions rt).
Proof.
  revert rt. induction actions as [|a actions IH]; intros rt Hrt; simpl; [exact Hrt|].
  apply IH, handed_out_step, Hrt.
Qed.

Lemma handed_out_new : handed_out new_Runtime.
Proof. intros k s. simpl. rewrite lookup_empty. discriminate. Qed.

(** C3 on the code: whatever the service did before, the channel of a
    [subscribeToConversations] is still joined after [cleanup], and
    after a second [cleanup]: the method never enters its subscription
    in the map that [cleanup] walks.  The channel of a
    [subscribeToMessages] is released by the same [cleanup]. *)
Theorem cleanup_misses_conversation_feed (actions : list action) (userId conversationId : uuid) :
  let rt := run actions new_Runtime in
  let feed := subscribeToConversations userId rt in
  let chat := subscribeToMessages conversationId (snd feed) in
  handle_subscription (fst feed) ∈ channels (cleanup (snd chat))
  /\ handle_subscription (fst feed) ∈ channels (cleanup (cleanup (snd chat)))
  /\ (handle_subscription (fst chat) ∉ channels (cleanup (snd chat)))
  /\ subscriptions (cleanup (snd chat)) = ∅.
Proof.
  intros rt feed chat.
  pose proof (handed_out_run actions new_Runtime handed_out_new) as Hm.
  fold rt in Hm.
  assert (Hfeed : handle_subscription (fst feed) ∈ channels (cleanup (snd chat))).
  { apply cleanup_channels. simpl. split.
    - apply elem_of_union. right. apply elem_of_union. left.
      apply elem_of_singleton. reflexivity.
    - intros k. destruct (decide (conversationId = k)) as [->|Hk].
      + rewrite lookup_insert_eq. discriminate.
      + rewrite lookup_insert_ne by exact Hk. intros Hs. specialize (Hm k _ Hs).
        discriminate. }
  split; [exact Hfeed|]. split; [rewrite cleanup_idempotent; exact Hfeed|].
  split; [|reflexivity].
  intros Hin. apply cleanup_channels in Hin as [_ Hin].
  apply (Hin conversationId). simpl. rewrite lookup_insert_eq. reflexivity.
Qed.

(** ** The constraints are an invariant

    Every statement leaves a database that satisfies the declared
    constraints, so the assumption [wf_db] of the results above holds in
    every state the requests can reach. *)

Lemma wf_db_empty : wf_db empty_DB.
Proof. apply (bool_decide_unpack _). vm_compute. exact I. Qed.

Lemma insert_conversation_participant_wf (p : principal) (now : timestamptz)
    (conversation_id user_id : uuid) (db db' : DB) :
  wf_db db ->
  insert_conversation_participant p now conversation_id user_id db = Ok db' ->
  wf_db db'.
Proof.
  intros Hwf. unfold insert_conversation_participant. cbv zeta. intros H.
  bind_inv H. case_bool_decide.
  - injection H as <-. exact Hwf.
  - bind_inv H. injection H as <-. eapply check_constraints_unit. eassumption.
Qed.

Lemma insert_conversation_wf (p : principal) (now : timestamptz)
    (item_id owner_id renter_id : uuid) (db : DB) (c : conversation) (db' : DB) :
  insert_conversation p now item_id owner_id renter_id db = Ok (c, db') -> wf_db db'.
Proof.
  unfold insert_conversation. cbv zeta. intros H.
  bind_inv H. bind_inv H. bind_inv H. injection H as _ <-.
  unfold create_conversation_participants in Hstep1.
  bind_inv Hstep1. bind_inv Hstep1. injection Hstep1 as <-.
  apply check_constraints_unit in Hstep0.
  eapply insert_conversation_participant_wf; [|eassumption].
  eapply insert_conversation_participant_wf; eassumption.
Qed.

Lemma insert_message_wf (p : principal) (now : timestamptz) (conversation_id sender_id : uuid)
    (text : content) (message_type : string) (metadata : json) (db : DB)
    (m : message) (db' : DB) :
  insert_message p now conversation_id sender_id text message_type metadata db = Ok (m, db') ->
  wf_db db'.
Proof. intros H. apply insert_message_Ok in H. tauto. Qed.

Lemma insert_rental_wf (p : principal) (now : timestamptz) (item_id renter_id owner_id : uuid)
    (start_date end_date : string) (total_price : option number) (status : rental_status)
    (db db' : DB) :
  insert_rental p now item_id renter_id owner_id start_date end_date total_price status db
  = Ok db' ->
  wf_db db'.
Proof. intros H. apply insert_rental_Ok in H as (total & _ & _ & Hwf). exact Hwf. Qed.

Lemma update_messages_wf (p : principal) (filter : message -> bool)
    (set : message -> message) (db : DB) (changed : list message) (db' : DB) :
  update_messages p filter set db = Ok (changed, db') -> wf_db db'.
Proof.
  unfold update_messages. cbv zeta. intros H. bind_inv H. bind_inv H. injection H as _ <-.
  eapply check_constraints_unit. eassumption.
Qed.

Lemma update_conversation_participants_wf (p : principal)
    (filter : conversation_participant -> bool)
    (set : conversation_participant -> conversation_participant) (db : DB)
    (changed : list conversation_participant) (db' : DB) :
  update_conversation_participants p filter set db = Ok (changed, db') -> wf_db db'.
Proof.
  unfold update_conversation_participants. cbv zeta. intros H.
  bind_inv H. bind_inv H. injection H as _ <-.
  eapply check_constraints_unit. eassumption.
Qed.

Lemma sendMessage_wf (p : principal) (now : timestamptz) (conversationId senderId : uuid)
    (text : content) (messageType : string) (metadata : json) (db : DB) :
  wf_db db -> wf_db (snd (sendMessage p now conversationId senderId text messageType metadata db)).
Proof.
  intros Hwf. unfold sendMessage.
  destruct (insert_message _ _ _ _ _ _ _ db) as [[m db']|e] eqn:H; simpl; [|exact Hwf].
  eapply insert_message_wf. eassumption.
Qed.

Lemma getOrCreateConversation_wf (p : principal) (now : timestamptz) (interleaved : DB -> DB)
    (itemId ownerId renterId : uuid) (db : DB) :
  wf_db db -> wf_db (interleaved db) ->
  wf_db (snd (getOrCreateConversation p now interleaved itemId ownerId renterId db)).
Proof.
  intros Hwf Hwf'. unfold getOrCreateConversation.
  destruct (single _) as [c|]; simpl; [exact Hwf|].
  destruct (insert_conversation _ _ _ _ _ _) as [[c db']|e] eqn:H; simpl; [|exact Hwf'].
  eapply insert_conversation_wf. eassumption.
Qed.

Lemma handleSubmit_wf (item : clothing_item) (user : option uuid)
    (now1 now2 now3 : timestamptz) (f : form) (db : DB) :
  wf_db db -> wf_db (snd (handleSubmit item user now1 now2 now3 id f db)).
Proof.
  intros Hwf. unfold handleSubmit.
  destruct (totalPrice f <=? 0)%number; [exact Hwf|].
  destruct user as [user_id|]; [|exact Hwf].
  destruct (insert_rental _ _ _ _ _ _ _ _ _ db) as [db1|e] eqn:Hrent; [|exact Hwf].
  apply insert_rental_wf in Hrent.
  pose proof (getOrCreateConversation_wf (Authenticated user_id) now2 id (i_id item)
                (i_owner_id item) user_id db1 Hrent Hrent) as Hconv.
  destruct (getOrCreateConversation _ _ _ _ _ _ db1) as [[c|] db2]; simpl in *.
  - apply sendMessage_wf. exact Hconv.
  - exact Hconv.
Qed.

(** ** [getMessages] *)

(** The transcript comes oldest first. *)
Lemma getMessages_sorted (p : principal) (conversationId : uuid) (db : DB) :
  StronglySorted (fun a b => m_created_at a <= m_created_at b)
                 (getMessages p conversationId db).
Proof. apply order_asc_sorted. Qed.

(** * Further properties of the requests *)

(** ** [sendMessage]: when it goes through, and what it touches *)

(** The columns of a conversation that constraints speak of. *)
Lemma wf_db_set_conversations (db : DB) (l : list conversation) :
  wf_db db ->
  c_id <$> l = c_id <$> conversations db ->
  (fun c => (conversation_key c, c_rental_id c)) <$> l
  = (fun c => (conversation_key c, c_rental_id c)) <$> conversations db ->
  wf_db (set_conversations l db).
Proof.
  unfold wf_db. intros Hwf Hid Hrefs. decompose [and] Hwf. clear Hwf.
  assert (Hkey : conversation_key <$> l = conversation_key <$> conversations db).
  { apply (f_equal (fmap fst)) in Hrefs. rewrite <- !list_fmap_compose in Hrefs.
    exact Hrefs. }
  repeat split; try assumption.
  - unfold conversations_pkey. simpl. rewrite Hid. assumption.
  - unfold conversations_key. simpl. rewrite Hkey. assumption.
  - unfold conversations_fkey in *. simpl.
    apply (Forall_fmap (fun c => (conversation_key c, c_rental_id c))
             (fun k => k.1.1.1 ∈ i_id <$> clothing_items db /\ k.1.1.2 ∈ users db
                       /\ k.1.2 ∈ users db
                       /\ match k.2 with
                          | Some r => r ∈ r_id <$> rentals db
                          | None => True
                          end)).
    rewrite Hrefs. apply Forall_fmap. assumption.
  - unfold messages_fkey in *. simpl. rewrite Hid. assumption.
  - unfold conversation_participants_fkey in *. simpl. rewrite Hid. assumption.
Qed.

Lemma wf_db_add_message (db : DB) (m : message) :
  wf_db db ->
  m_id m ∉ m_id <$> messages db ->
  m_conversation_id m ∈ c_id <$> conversations db ->
  m_sender_id m ∈ users db ->
  m_message_type m ∈ message_types ->
  wf_db (set_messages (messages db ++ [m]) db).
Proof.
  unfold wf_db. intros Hwf Hid Hc Hs Ht. decompose [and] Hwf. clear Hwf.
  repeat split; try assumption.
  - unfold messages_pkey in *. simpl. rewrite fmap_app. apply NoDup_app.
    split; [assumption|]. split; [|apply NoDup_singleton].
    intros id Hold Hnew. simpl in Hnew. apply list_elem_of_singleton in Hnew.
    subst id. contradiction.
  - unfold messages_fkey in *. simpl. apply Forall_app. split; [assumption|].
    apply Forall_singleton. auto.
  - unfold messages_message_type_check in *. simpl. apply Forall_app.
    split; [assumption|]. apply Forall_singleton. assumption.
Qed.

(** An update that keeps identifiers, parties and references, by a
    session whose policy looks at the parties only, goes through. *)
Lemma update_conversations_keep (p : principal) (filter : conversation -> bool)
    (set : conversation -> conversation) (db : DB) :
  wf_db db ->
  (forall c, c_id (set c) = c_id c) ->
  (forall c, conversation_key (set c) = conversation_key c) ->
  (forall c, c_rental_id (set c) = c_rental_id c) ->
  update_conversations p filter set db
  = Ok (map set (List.filter (fun c => filter c && conversations_select p c
                                       && conversations_update p c)
                             (conversations db)),
        set_conversations
          (map (fun c => if filter c && conversations_select p c && conversations_update p c
                         then set c else c)
               (conversations db)) db).
Proof.
  intros Hwf Hid Hkey Hrental. unfold update_conversations. cbv zeta.
  match goal with
  | |- context [require (forallb ?f ?l) _] => assert (Hcheck : forallb f l = true)
  end.
  { apply forallb_forall. intros c' Hin. apply in_map_iff in Hin as (c & <- & Hin).
    apply filter_In in Hin as [_ Ht]. apply andb_true_iff in Ht as [_ Ht].
    unfold conversations_select, conversations_update, is_owner_or_renter in *.
    specialize (Hkey c). unfold conversation_key in Hkey. injection Hkey as _ -> ->.
    rewrite Ht. reflexivity. }
  rewrite Hcheck. cbn [require bind].
  match goal with
  | |- context [check_constraints ?d] => assert (Hwf' : wf_db d)
  end.
  { apply wf_db_set_conversations; [assumption| |].
    - apply fmap_map_if. exact Hid.
    - apply fmap_map_if. intros c. rewrite Hkey, Hrental. reflexivity. }
  apply check_constraints_wf in Hwf'. rewrite Hwf'. reflexivity.
Qed.

(** The party of a conversation is a user. *)
Lemma party_is_user (db : DB) (c : conversation) (uid : uuid) :
  wf_db db -> In c (conversations db) -> is_owner_or_renter uid c = true ->
  uid ∈ users db.
Proof.
  intros Hwf Hin Hc. unfold wf_db in Hwf. decompose [and] Hwf. clear Hwf.
  unfold conversations_fkey in *.
  match goal with H : Forall _ (conversations db) |- _ => rewrite Forall_forall in H;
    destruct (H c (proj2 (list_elem_of_In _ _) Hin)) as (_ & Ho & Hr & _) end.
  unfold is_owner_or_renter in Hc. apply orb_true_iff in Hc as [Hc|Hc];
    apply Nat.eqb_eq in Hc; subst uid; assumption.
Qed.

(** X1.  In the session of an authenticated user, [sendMessage] answers
    with the stored message exactly when the sender is the session's
    user, that user is the owner or the renter of a conversation with
    the given identifier, and the message type is one of the four the
    table admits; otherwise it answers [null] and writes nothing. *)
Theorem sendMessage_goes_through_iff (uid : uuid) (now : timestamptz)
    (conversationId senderId : uuid) (text : content) (messageType : string)
    (metadata : json) (db : DB) :
  wf_db db ->
  let sent := sendMessage (Authenticated uid) now conversationId senderId text messageType
                          metadata db in
  ((exists m, fst sent = Some m)
   <-> senderId = uid
       /\ (exists c, In c (conversations db) /\ c_id c = conversationId
                     /\ (c_owner_id c = uid \/ c_renter_id c = uid))
       /\ In messageType message_types)
  /\ (fst sent = None -> snd sent = db)
  /\ (forall m, fst sent = Some m ->
        m_sender_id m = uid /\ m_conversation_id m = conversationId
        /\ m_created_at m = now /\ m_content m = text /\ m_metadata m = metadata
        /\ messages (snd sent) = (messages db ++ [m])%list).
Proof.
  intros Hwf sent. subst sent. unfold sendMessage.
  destruct (insert_message _ _ _ _ _ _ _ db) as [[m db']|e] eqn:Hins; simpl.
  - pose proof Hins as Hok.
    apply insert_message_Ok in Hok as (Hm & Hpol & Hwf1 & _ & Hmsgs & _).
    split; [split|split; [discriminate|]].
    + intros _. subst m. unfold messages_insert in Hpol. simpl in Hpol.
      apply andb_true_iff in Hpol as [Hs Hc]. apply Nat.eqb_eq in Hs.
      split; [congruence|]. split.
      * unfold in_own_conversation in Hc. apply existsb_exists in Hc as (c & Hin & Hc).
        apply andb_true_iff in Hc as [Hid Hc]. apply Nat.eqb_eq in Hid.
        exists c. split; [exact Hin|]. split; [exact Hid|].
        unfold is_owner_or_renter in Hc. apply orb_true_iff in Hc as [Hc|Hc];
          apply Nat.eqb_eq in Hc; auto.
      * assert (Ht : messages_message_type_check
                       (set_messages
                          (messages db
                           ++ [mk_message (gen_random_uuid db) conversationId senderId text
                                          messageType metadata (JObj []) now]) db))
          by (unfold wf_db in Hwf1; tauto).
        unfold messages_message_type_check in Ht. simpl in Ht.
        apply Forall_app in Ht as [_ Ht]. apply Forall_inv in Ht. simpl in Ht.
        apply list_elem_of_In in Ht. exact Ht.
    + eauto.
    + intros m' [= <-]. subst m. simpl. unfold messages_insert in Hpol. simpl in Hpol.
      apply andb_true_iff in Hpol as [Hs _]. apply Nat.eqb_eq in Hs.
      rewrite Hmsgs. auto 10.
  - split; [split|split; [reflexivity|discriminate]].
    + intros [m Hm]. discriminate.
    + intros (-> & (c & Hin & Hid & Hparty) & Htype). exfalso.
      assert (Hc : is_owner_or_renter uid c = true).
      { unfold is_owner_or_renter. apply orb_true_iff.
        destruct Hparty as [->| ->]; [left|right]; apply Nat.eqb_refl. }
      unfold insert_message in Hins. cbv zeta in Hins.
      unfold messages_insert in Hins. cbn [policy m_sender_id m_conversation_id] in Hins.
      rewrite Nat.eqb_refl, <- Hid, (in_own_conversation_intro db uid c Hin Hc) in Hins.
      cbn [andb require bind] in Hins.
      match type of Hins with
      | context [check_constraints ?d] => assert (Hwf1 : wf_db d)
      end.
      { apply wf_db_add_message; try assumption; simpl.
        - apply gen_random_uuid_messages.
        - apply list_elem_of_fmap. exists c. split; [reflexivity|].
          apply list_elem_of_In. exact Hin.
        - exact (party_is_user db c uid Hwf Hin Hc).
        - apply list_elem_of_In. exact Htype. }
      pose proof Hwf1 as Hchk. apply check_constraints_wf in Hchk.
      rewrite Hchk in Hins. cbn [bind] in Hins.
      unfold update_conversation_last_message in Hins.
      rewrite update_conversations_keep in Hins; try (intros; reflexivity); [|exact Hwf1].
      discriminate.
Qed.

Lemma sendMessage_goes_through_iff_witness :
  wf_db db_thread
  /\ (exists c, In c (conversations db_thread) /\ c_id c = 20%nat
                /\ (c_owner_id c = 2%nat \/ c_renter_id c = 2%nat))
  /\ In "text" message_types
  /\ exists m, fst (sendMessage (Authenticated 2) 9 20 2 (Text "Hi") "text" (JObj [])
                                db_thread) = Some m.
Proof.
  assert (Hwf : wf_db db_thread) by (apply (bool_decide_unpack _); vm_compute; exact I).
  assert (Hc : exists c, In c (conversations db_thread) /\ c_id c = 20%nat
                         /\ (c_owner_id c = 2%nat \/ c_renter_id c = 2%nat)).
  { exists thread. split; [left; reflexivity|]. split; [reflexivity|right; reflexivity]. }
  assert (Ht : In "text" message_types) by (left; reflexivity).
  split; [exact Hwf|]. split; [exact Hc|]. split; [exact Ht|].
  apply (proj1 (sendMessage_goes_through_iff 2 9 20 2 (Text "Hi") "text" (JObj [])
                  db_thread Hwf)).
  split; [reflexivity|]. split; [exact Hc | exact Ht].
Defined.

(** The database after a message insertion that went through. *)
Lemma insert_message_db (p : principal) (now : timestamptz) (conversation_id sender_id : uuid)
    (text : content) (message_type : string) (metadata : json) (db : DB)
    (m : message) (db' : DB) :
  insert_message p now conversation_id sender_id text message_type metadata db = Ok (m, db') ->
  db' = mk_DB (users db) (clothing_items db) (rentals db) (conversations db')
              (messages db ++ [m]) (conversation_participants db).
Proof.
  unfold insert_message. cbv zeta. intros H.
  bind_inv H. bind_inv H. bind_inv H. injection H as <- <-.
  unfold update_conversation_last_message in Hstep1. bind_inv Hstep1.
  injection Hstep1 as <-. destruct a2 as [changed db2].
  apply update_conversations_Ok in Hstep2 as [_ ->]. reflexivity.
Qed.

(** Every conversation keeps its identifier, its item and its parties
    through a message insertion. *)
Lemma insert_message_keeps_parties (p : principal) (now : timestamptz)
    (conversation_id sender_id : uuid) (text : content) (message_type : string)
    (metadata : json) (db : DB) (m : message) (db' : DB) :
  insert_message p now conversation_id sender_id text message_type metadata db = Ok (m, db') ->
  (fun c => (c_id c, conversation_key c, c_rental_id c, c_created_at c)) <$> conversations db'
  = (fun c => (c_id c, conversation_key c, c_rental_id c, c_created_at c)) <$> conversations db.
Proof.
  intros H. apply insert_message_Ok in H as (_ & _ & _ & _ & _ & ->).
  apply fmap_map_if. reflexivity.
Qed.

Lemma sendMessage_rentals (p : principal) (now : timestamptz) (conversationId senderId : uuid)
    (text : content) (messageType : string) (metadata : json) (db : DB) :
  rentals (snd (sendMessage p now conversationId senderId text messageType metadata db))
  = rentals db.
Proof.
  unfold sendMessage.
  destruct (insert_message _ _ _ _ _ _ _ db) as [[m db1]|e] eqn:Hins; simpl; [|reflexivity].
  rewrite (insert_message_db _ _ _ _ _ _ _ _ _ _ Hins). reflexivity.
Qed.

(** X2.  [sendMessage] is append-only and local: whatever it answers,
    it leaves users, items, rentals and participant rows as they were,
    keeps every earlier message in place, keeps the identifier, item,
    parties, rental and creation time of every conversation, and does
    not change any conversation other than the one addressed. *)
Theorem sendMessage_frame (p : principal) (now : timestamptz) (conversationId senderId : uuid)
    (text : content) (messageType : string) (metadata : json) (db : DB) :
  let db' := snd (sendMessage p now conversationId senderId text messageType metadata db) in
  users db' = users db /\ clothing_items db' = clothing_items db
  /\ rentals db' = rentals db
  /\ conversation_participants db' = conversation_participants db
  /\ (exists new, messages db' = (messages db ++ new)%list /\ (length new <= 1)%nat)
  /\ (fun c => (c_id c, conversation_key c, c_rental_id c, c_created_at c))
       <$> conversations db'
     = (fun c => (c_id c, conversation_key c, c_rental_id c, c_created_at c))
         <$> conversations db
  /\ List.filter (fun c => negb (c_id c =? conversationId)%nat) (conversations db')
     = List.filter (fun c => negb (c_id c =? conversationId)%nat) (conversations db).
Proof.
  intros db'. subst db'. unfold sendMessage.
  destruct (insert_message _ _ _ _ _ _ _ db) as [[m db1]|e] eqn:Hins; simpl.
  - pose proof (insert_message_keeps_parties _ _ _ _ _ _ _ _ _ _ Hins) as Hkeep.
    pose proof (insert_message_db _ _ _ _ _ _ _ _ _ _ Hins) as Hdb.
    apply insert_message_Ok in Hins as (_ & _ & _ & _ & Hmsgs & Hconvs).
    rewrite Hdb. simpl.
    split; [reflexivity|]. split; [reflexivity|]. split; [reflexivity|].
    split; [reflexivity|].
    split; [exists [m]; split; [reflexivity | simpl; lia]|].
    split; [exact Hkeep|].
    rewrite Hconvs. clear.
    induction (conversations db) as [|c l IH]; simpl; [reflexivity|].
    destruct (Nat.eqb_spec (c_id c) conversationId) as [Hc|Hc]; simpl.
    + destruct (_ && _); simpl; rewrite ?(proj2 (Nat.eqb_eq _ _) Hc); simpl; exact IH.
    + rewrite (proj2 (Nat.eqb_neq _ _) Hc). simpl. rewrite IH. reflexivity.
  - split; [reflexivity|]. split; [reflexivity|]. split; [reflexivity|].
    split; [reflexivity|].
    split; [exists []; split; [rewrite app_nil_r; reflexivity | simpl; lia]|].
    split; reflexivity.
Qed.

(** ** [getMessages]: the transcript of a participant *)

Lemma getMessages_perm (uid : uuid) (c : conversation) (db : DB) :
  In c (conversations db) ->
  c_owner_id c = uid \/ c_renter_id c = uid ->
  getMessages (Authenticated uid) (c_id c) db
  ≡ₚ List.filter (fun m => (m_conversation_id m =? c_id c)%nat) (messages db).
Proof.
  intros Hin Hparty.
  unfold getMessages, order_asc. rewrite merge_sort_Permutation.
  rewrite messages_of_participant; [reflexivity|exact Hin|].
  unfold is_owner_or_renter. apply orb_true_iff.
  destruct Hparty as [<-|<-]; [left|right]; apply Nat.eqb_refl.
Qed.

(** X3.  For the owner or the renter of a conversation, [getMessages]
    returns every message of the conversation, each once, oldest
    first. *)
Theorem getMessages_transcript (uid : uuid) (c : conversation) (db : DB) :
  In c (conversations db) ->
  c_owner_id c = uid \/ c_renter_id c = uid ->
  getMessages (Authenticated uid) (c_id c) db
  ≡ₚ List.filter (fun m => (m_conversation_id m =? c_id c)%nat) (messages db)
  /\ StronglySorted (fun a b => m_created_at a <= m_created_at b)
                    (getMessages (Authenticated uid) (c_id c) db).
Proof.
  intros Hin Hparty.
  split; [apply getMessages_perm; assumption | apply getMessages_sorted].
Qed.

Lemma getMessages_transcript_witness :
  In (mk_conversation 20 10 1 2 None 5000400 5 5000400) (conversations db_chat)
  /\ getMessages (Authenticated 2) 20 db_chat ≡ₚ [hello].
Proof.
  assert (Hin : In (mk_conversation 20 10 1 2 None 5000400 5 5000400) (conversations db_chat))
    by (left; reflexivity).
  split; [exact Hin|].
  exact (proj1 (getMessages_transcript 2 _ db_chat Hin (or_intror eq_refl))).
Defined.

(** A conversation and its parties after a message insertion. *)
Lemma insert_message_conversation (p : principal) (now : timestamptz)
    (conversation_id sender_id : uuid) (text : content) (message_type : string)
    (metadata : json) (db : DB) (m : message) (db' : DB) (c : conversation) :
  insert_message p now conversation_id sender_id text message_type metadata db = Ok (m, db') ->
  In c (conversations db) ->
  exists c', In c' (conversations db') /\ c_id c' = c_id c
             /\ c_owner_id c' = c_owner_id c /\ c_renter_id c' = c_renter_id c.
Proof.
  intros H Hin. apply insert_message_Ok in H as (_ & _ & _ & _ & _ & ->).
  eexists. split; [apply in_map_iff; exists c; split; [reflexivity|exact Hin]|].
  destruct (_ && _); simpl; auto.
Qed.

(** X4.  A message that [sendMessage] stored is read back: after a send
    that went through, [getMessages] of either party of the conversation
    returns the earlier messages of the conversation and the new one,
    and nothing else. *)
Theorem sendMessage_then_getMessages (p : principal) (now : timestamptz) (senderId : uuid)
    (text : content) (messageType : string) (metadata : json) (db : DB)
    (c : conversation) (reader : uuid) (m : message) :
  In c (conversations db) ->
  c_owner_id c = reader \/ c_renter_id c = reader ->
  fst (sendMessage p now (c_id c) senderId text messageType metadata db) = Some m ->
  getMessages (Authenticated reader) (c_id c)
              (snd (sendMessage p now (c_id c) senderId text messageType metadata db))
  ≡ₚ (List.filter (fun m => (m_conversation_id m =? c_id c)%nat) (messages db) ++ [m])%list.
Proof.
  intros Hin Hparty. unfold sendMessage.
  destruct (insert_message _ _ _ _ _ _ _ db) as [[m' db']|e] eqn:Hins; simpl; [|discriminate].
  intros [= ->].
  destruct (insert_message_conversation _ _ _ _ _ _ _ _ _ _ c Hins Hin)
    as (c' & Hin' & Hid & Ho & Hr).
  apply insert_message_Ok in Hins as (Hm & _ & _ & _ & Hmsgs & _).
  rewrite <- Hid.
  rewrite (getMessages_perm reader c' db' Hin' ltac:(congruence)).
  rewrite Hmsgs, List.filter_app, Hid. simpl.
  subst m. simpl. rewrite Nat.eqb_refl. reflexivity.
Qed.

Lemma sendMessage_then_getMessages_witness :
  In thread (conversations db_thread)
  /\ exists m,
       fst (sendMessage (Authenticated 2) 9 20 2 (Text "Hi") "text" (JObj []) db_thread)
       = Some m
       /\ getMessages (Authenticated 1) 20
            (snd (sendMessage (Authenticated 2) 9 20 2 (Text "Hi") "text" (JObj [])
                              db_thread))
          ≡ₚ [m].
Proof.
  assert (Hin : In thread (conversations db_thread)) by (left; reflexivity).
  split; [exact Hin|]. eexists. split; [vm_compute; reflexivity|].
  exact (sendMessage_then_getMessages (Authenticated 2) 9 2 (Text "Hi") "text" (JObj [])
           db_thread thread 1 _ Hin (or_introl eq_refl) eq_refl).
Defined.

(** ** [getUserConversations]: the entries *)

Lemma length_filter_le_impl {A} (f g : A -> bool) (l : list A) :
  (forall x, In x l -> f x = true -> g x = true) ->
  (length (List.filter f l) <= length (List.filter g l))%nat.
Proof.
  induction l as [|x l IH]; simpl; intros H; [lia|].
  assert (IH' : (length (List.filter f l) <= length (List.filter g l))%nat)
    by (apply IH; intros y Hy; apply H; right; exact Hy).
  destruct (f x) eqn:Hf.
  - rewrite (H x (or_introl eq_refl) Hf). simpl. lia.
  - destruct (g x); simpl; lia.
Qed.

(** X5.  Every entry of [getUserConversations] carries a last message:
    a message of that conversation no older than any other message of
    it that the session sees.  With unique identifiers, no conversation
    is listed twice. *)
Theorem getUserConversations_last_message (p : principal) (userId : uuid) (db : DB)
    (v : conversation_view) :
  In v (getUserConversations p userId db) ->
  (exists m, last_message v = Some m
             /\ In m (messages db)
             /\ m_conversation_id m = c_id (v_conversation v)
             /\ forall m', In m' (messages_of p db (c_id (v_conversation v))) ->
                           m_created_at m' <= m_created_at m)
  /\ (wf_db db -> NoDup (c_id <$> (v_conversation <$> getUserConversations p userId db))).
Proof.
  intros Hin. split.
  - unfold getUserConversations in Hin. apply in_map_iff in Hin as (conv & <- & Hin).
    simpl. apply list_elem_of_In in Hin. rewrite order_desc_perm in Hin.
    apply list_elem_of_In, filter_In in Hin as [_ Hf].
    apply andb_true_iff in Hf as [_ Hne].
    pose proof (order_desc_sorted m_created_at (messages_of p db (c_id conv))) as Hsorted.
    pose proof (order_desc_perm m_created_at (messages_of p db (c_id conv))) as Hperm.
    destruct (order_desc m_created_at (messages_of p db (c_id conv))) as [|m ms] eqn:Hs.
    + apply Permutation_length in Hperm. simpl in Hperm. rewrite <- Hperm in Hne.
      discriminate.
    + exists m. split; [reflexivity|].
      assert (Hm : In m (messages_of p db (c_id conv))).
      { apply list_elem_of_In. rewrite <- Hperm. left. }
      destruct (messages_of_In p db (c_id conv) m Hm) as [Hmdb Hmc].
      split; [exact Hmdb|]. split; [exact Hmc|].
      intros m' Hm'. apply list_elem_of_In in Hm'. rewrite <- Hperm in Hm'.
      apply StronglySorted_inv in Hsorted as [_ Hall].
      apply elem_of_cons in Hm' as [->|Hm']; [lia|].
      rewrite Forall_forall in Hall. exact (Hall m' Hm').
  - intros Hwf. rewrite getUserConversations_rows, order_desc_perm.
    unfold select_conversations. rewrite filter_filter_andb.
    apply wf_db_conversations_pkey in Hwf. unfold conversations_pkey in Hwf.
    clear Hin. induction (conversations db) as [|c l IH]; simpl; [constructor|].
    apply NoDup_cons in Hwf as [Hc Hl]. specialize (IH Hl).
    destruct (_ && _); [|exact IH].
    simpl. apply NoDup_cons. split; [|exact IH].
    intros Habs. apply Hc. apply list_elem_of_fmap in Habs as (c' & Hid & Hin').
    apply list_elem_of_In, filter_In in Hin' as [Hin' _].
    apply list_elem_of_fmap. exists c'. split; [exact Hid|].
    apply list_elem_of_In. exact Hin'.
Qed.

Lemma getUserConversations_last_message_witness :
  let v := mk_conversation_view (mk_conversation 20 10 1 2 None 5000400 5 5000400)
                                [hello] (Some hello) 1 in
  In v (getUserConversations (Authenticated 2) 2 db_chat)
  /\ exists m, last_message v = Some m /\ In m (messages db_chat).
Proof.
  assert (Hin : In (mk_conversation_view (mk_conversation 20 10 1 2 None 5000400 5 5000400)
                                         [hello] (Some hello) 1)
                   (getUserConversations (Authenticated 2) 2 db_chat))
    by (vm_compute; left; reflexivity).
  split; [exact Hin|].
  destruct (proj1 (getUserConversations_last_message (Authenticated 2) 2 db_chat _ Hin))
    as (m & Hm & Hdb & _).
  exists m. split; assumption.
Defined.

(** X6.  The unread count never counts a message that the user sent:
    it is at most the number of messages of the conversation from other
    senders, so it is 0 for a conversation in which only the user
    wrote. *)
Theorem unread_count_excludes_own (p : principal) (userId : uuid) (db : DB)
    (v : conversation_view) :
  In v (getUserConversations p userId db) ->
  (unread_count v
   <= length (List.filter (fun m => (m_conversation_id m =? c_id (v_conversation v))%nat
                                    && negb (m_sender_id m =? userId)%nat)
                          (messages db)))%nat.
Proof.
  intros Hin. apply getUserConversations_In in Hin as (-> & _).
  unfold unreadCount.
  destruct (participant_of _ _ _ _) as [cp|]; [|lia].
  destruct (p_last_read_at cp) as [t|]; [|lia].
  unfold messages_of, select_messages. rewrite !filter_filter_andb.
  apply length_filter_le_impl. intros m _ H.
  apply andb_true_iff in H as [_ H]. apply andb_true_iff in H as [Hc H].
  apply andb_true_iff in H as [Hs _]. rewrite Hc, Hs. reflexivity.
Qed.

Lemma unread_count_excludes_own_witness :
  let v := mk_conversation_view (mk_conversation 20 10 1 2 None 5000400 5 5000400)
                                [hello] (Some hello) 0 in
  In v (getUserConversations (Authenticated 1) 1 db_chat)
  /\ (unread_count v <= 0)%nat.
Proof.
  assert (Hin : In (mk_conversation_view (mk_conversation 20 10 1 2 None 5000400 5 5000400)
                                         [hello] (Some hello) 0)
                   (getUserConversations (Authenticated 1) 1 db_chat))
    by (vm_compute; left; reflexivity).
  split; [exact Hin|].
  exact (unread_count_excludes_own (Authenticated 1) 1 db_chat _ Hin).
Defined.

Lemma getUserConversations_lists (userId : uuid) (db : DB) (c : conversation) (m : message) :
  In c (conversations db) ->
  c_owner_id c = userId \/ c_renter_id c = userId ->
  In m (messages db) -> m_conversation_id m = c_id c ->
  c ∈ v_conversation <$> getUserConversations (Authenticated userId) userId db.
Proof.
  intros Hin Hparty Hm Hmc.
  assert (Hc : ((c_owner_id c =? userId)%nat || (c_renter_id c =? userId)%nat) = true)
    by (apply orb_true_iff; destruct Hparty as [->| ->]; [left|right]; apply Nat.eqb_refl).
  rewrite getUserConversations_rows, order_desc_perm.
  apply list_elem_of_In, filter_In. split.
  - unfold select_conversations. apply filter_In. split; [exact Hin|].
    unfold conversations_select, policy, is_owner_or_renter. exact Hc.
  - rewrite Hc. simpl. rewrite (messages_of_participant db userId c Hin Hc).
    rewrite length_filter_existsb. apply existsb_exists.
    exists m. split; [exact Hm|]. apply Nat.eqb_eq. exact Hmc.
Qed.

(** X7.  Once a message went through, the conversation is listed for
    each of its parties, with the time of that message as its
    [last_message_at]. *)
Theorem sendMessage_then_listed (p : principal) (now : timestamptz) (senderId : uuid)
    (text : content) (messageType : string) (metadata : json) (db : DB)
    (c : conversation) (reader : uuid) (m : message) :
  In c (conversations db) ->
  c_owner_id c = reader \/ c_renter_id c = reader ->
  fst (sendMessage p now (c_id c) senderId text messageType metadata db) = Some m ->
  exists v,
    In v (getUserConversations (Authenticated reader) reader
            (snd (sendMessage p now (c_id c) senderId text messageType metadata db)))
    /\ c_id (v_conversation v) = c_id c
    /\ c_last_message_at (v_conversation v) = now.
Proof.
  intros Hin Hparty. unfold sendMessage.
  destruct (insert_message _ _ _ _ _ _ _ db) as [[m' db']|e] eqn:Hins; simpl; [|discriminate].
  intros [= ->].
  destruct (insert_message_conversation _ _ _ _ _ _ _ _ _ _ c Hins Hin)
    as (c' & Hin' & Hid & Ho & Hr).
  pose proof (insert_message_stamps _ _ _ _ _ _ _ _ _ _ Hins)
    as (_ & Hmc & Hmin & _ & Hstamped).
  destruct (Hstamped c' Hin' Hid) as [Hlast _].
  assert (Hrow : c' ∈ v_conversation <$> getUserConversations (Authenticated reader) reader db').
  { apply (getUserConversations_lists reader db' c' m); [exact Hin'| |exact Hmin|congruence].
    rewrite Ho, Hr. exact Hparty. }
  apply list_elem_of_fmap in Hrow as (v & -> & Hv).
  exists v. split; [apply list_elem_of_In; exact Hv|]. auto.
Qed.

Lemma sendMessage_then_listed_witness :
  In thread (conversations db_thread)
  /\ getUserConversations (Authenticated 1) 1 db_thread = []
  /\ exists v,
       In v (getUserConversations (Authenticated 1) 1
               (snd (sendMessage (Authenticated 2) 9 20 2 (Text "Hi") "text" (JObj [])
                                 db_thread)))
       /\ c_id (v_conversation v) = 20%nat
       /\ c_last_message_at (v_conversation v) = 9.
Proof.
  assert (Hin : In thread (conversations db_thread)) by (left; reflexivity).
  split; [exact Hin|]. split; [vm_compute; reflexivity|].
  refine (sendMessage_then_listed (Authenticated 2) 9 2 (Text "Hi") "text" (JObj [])
            db_thread thread 1 _ Hin (or_introl eq_refl) _).
  vm_compute. reflexivity.
Defined.

(** ** [markAsRead]: what it writes and what it leaves *)

(** X8.  In the user's own session, [markAsRead] is read back: the
    participant row of the user for the conversation then carries the
    client's time, in microseconds, and is otherwise the row it was. *)
Theorem markAsRead_read_back (Date_now : Z) (db : DB) (cp : conversation_participant) :
  wf_db db ->
  In cp (conversation_participants db) ->
  participant_of (Authenticated (p_user_id cp)) (p_user_id cp)
    (markAsRead (Authenticated (p_user_id cp)) Date_now (p_conversation_id cp)
                (p_user_id cp) db)
    (p_conversation_id cp)
  = Some (read_at (Date_now * 1000) cp).
Proof.
  intros Hwf Hin.
  pose proof (markAsRead_wf (Authenticated (p_user_id cp)) Date_now (p_conversation_id cp)
                (p_user_id cp) db Hwf) as Hwf'.
  apply (participant_of_own _ (read_at (Date_now * 1000) cp) Hwf').
  rewrite markAsRead_spec by assumption. simpl.
  apply in_map_iff. exists cp. split; [|exact Hin].
  unfold participants_select, participants_update. simpl.
  rewrite !Nat.eqb_refl. reflexivity.
Qed.

Lemma markAsRead_read_back_witness :
  let cp := mk_conversation_participant 22 20 2 5 (Some 5) in
  wf_db db_chat /\ In cp (conversation_participants db_chat)
  /\ participant_of (Authenticated 2) 2 (markAsRead (Authenticated 2) 6000 20 2 db_chat) 20
     = Some (mk_conversation_participant 22 20 2 5 (Some 6000000)).
Proof.
  assert (Hwf : wf_db db_chat) by (apply (bool_decide_unpack _); vm_compute; exact I).
  assert (Hin : In (mk_conversation_participant 22 20 2 5 (Some 5))
                   (conversation_participants db_chat))
    by (right; left; reflexivity).
  split; [exact Hwf|]. split; [exact Hin|].
  exact (markAsRead_read_back 6000 db_chat _ Hwf Hin).
Defined.

(** X9.  [markAsRead] touches nothing but the read marker of the
    session's own row for that conversation: the other tables and the
    participant rows of other users or other conversations stay as they
    are, every row keeps its identifier, pair and join time, and in the
    session of anyone but the named user the database does not change at
    all. *)
Theorem markAsRead_frame (p : principal) (Date_now : Z) (conversationId userId : uuid)
    (db : DB) :
  wf_db db ->
  let db' := markAsRead p Date_now conversationId userId db in
  users db' = users db /\ clothing_items db' = clothing_items db
  /\ rentals db' = rentals db /\ conversations db' = conversations db
  /\ messages db' = messages db
  /\ (fun cp => (p_id cp, participant_key cp, p_joined_at cp))
       <$> conversation_participants db'
     = (fun cp => (p_id cp, participant_key cp, p_joined_at cp))
         <$> conversation_participants db
  /\ (forall cp, In cp (conversation_participants db) ->
                 p_conversation_id cp <> conversationId \/ p_user_id cp <> userId ->
                 In cp (conversation_participants db'))
  /\ (forall uid, p = Authenticated uid -> uid <> userId -> db' = db).
Proof.
  intros Hwf db'. subst db'. rewrite markAsRead_spec by assumption. simpl.
  split; [reflexivity|]. split; [reflexivity|]. split; [reflexivity|].
  split; [reflexivity|]. split; [reflexivity|].
  split; [apply fmap_map_if; reflexivity|]. split.
  - intros cp Hin Hother. apply in_map_iff. exists cp. split; [|exact Hin].
    destruct Hother as [Hc|Hu].
    + rewrite (proj2 (Nat.eqb_neq _ _) Hc). reflexivity.
    + rewrite (proj2 (Nat.eqb_neq _ _) Hu), andb_false_r. reflexivity.
  - intros uid -> Hne. rewrite map_if_id.
    + destruct db. reflexivity.
    + intros cp _. unfold participants_select. simpl.
      destruct (Nat.eqb_spec (p_user_id cp) userId) as [Hu|Hu];
        [|rewrite andb_false_r; reflexivity].
      rewrite (proj2 (Nat.eqb_neq uid (p_user_id cp))) by congruence.
      rewrite andb_false_r. reflexivity.
Qed.

Lemma markAsRead_frame_witness :
  wf_db db_chat
  /\ markAsRead (Authenticated 1) 6000 20 2 db_chat = db_chat
  /\ In (mk_conversation_participant 21 20 1 5 (Some 5))
        (conversation_participants (markAsRead (Authenticated 2) 6000 20 2 db_chat)).
Proof.
  assert (Hwf : wf_db db_chat) by (apply (bool_decide_unpack _); vm_compute; exact I).
  destruct (markAsRead_frame (Authenticated 1) 6000 20 2 db_chat Hwf)
    as (_ & _ & _ & _ & _ & _ & _ & Hsame).
  destruct (markAsRead_frame (Authenticated 2) 6000 20 2 db_chat Hwf)
    as (_ & _ & _ & _ & _ & _ & Hother & _).
  split; [exact Hwf|]. split.
  - apply (Hsame 1%nat); [reflexivity | discriminate].
  - apply Hother; [left; reflexivity | right; discriminate].
Defined.

(** ** [getOrCreateConversation]: what it returns *)

Lemma insert_conversation_conversations (p : principal) (now : timestamptz)
    (item_id owner_id renter_id : uuid) (db : DB) (c : conversation) (db' : DB) :
  insert_conversation p now item_id owner_id renter_id db = Ok (c, db') ->
  conversations db' = (conversations db ++ [c])%list
  /\ conversation_key c = (item_id, owner_id, renter_id)
  /\ conversations_select p c = true.
Proof.
  unfold insert_conversation. cbv zeta. intros H.
  bind_inv H. apply require_Ok in Hstep. bind_inv H. bind_inv H. injection H as <- <-.
  unfold create_conversation_participants in Hstep1.
  bind_inv Hstep1. bind_inv Hstep1. injection Hstep1 as <-.
  split; [|split; [reflexivity | exact Hstep]].
  apply insert_conversation_participant_Ok in Hstep2 as [[_ ->] | [_ ->]];
    apply insert_conversation_participant_Ok in Hstep3 as [[_ ->] | [_ ->]]; reflexivity.
Qed.

Lemma getOrCreateConversation_Some (p : principal) (now : timestamptz)
    (interleaved : DB -> DB) (itemId ownerId renterId : uuid) (db : DB)
    (c : conversation) :
  fst (getOrCreateConversation p now interleaved itemId ownerId renterId db) = Some c ->
  In c (conversations
          (snd (getOrCreateConversation p now interleaved itemId ownerId renterId db)))
  /\ conversation_key c = (itemId, ownerId, renterId)
  /\ conversations_select p c = true.
Proof.
  unfold getOrCreateConversation.
  destruct (single _) as [c0|] eqn:Hs; simpl.
  - intros [= ->]. unfold single in Hs.
    destruct (List.filter _ _) as [|c1 [|? ?]] eqn:Hf; try discriminate.
    injection Hs as ->.
    assert (Hin : In c (c :: nil)) by (left; reflexivity).
    rewrite <- Hf in Hin. apply filter_In in Hin as [Hin Hk].
    unfold select_conversations in Hin. apply filter_In in Hin as [Hin Hsel].
    apply andb_true_iff in Hk as [Hk Hr]. apply andb_true_iff in Hk as [Hi Ho].
    apply Nat.eqb_eq in Hi, Ho, Hr. unfold conversation_key.
    split; [exact Hin|]. split; [congruence | exact Hsel].
  - destruct (insert_conversation _ _ _ _ _ _) as [[c1 db1]|e] eqn:Hins; simpl;
      [|discriminate].
    intros [= ->]. apply insert_conversation_conversations in Hins as (-> & Hk & Hsel).
    split; [apply in_or_app; right; left; reflexivity|]. auto.
Qed.

(** X10.  Whatever conversation [getOrCreateConversation] returns is a
    stored row, is about exactly the item, the owner and the renter that
    were asked for, and is one the session may read.  It is either a row
    that was stored before the call, and then nothing is written, or the
    one row that the call appended to the table. *)
Theorem getOrCreateConversation_returns_stored (p : principal) (now : timestamptz)
    (interleaved : DB -> DB) (itemId ownerId renterId : uuid) (db : DB)
    (c : conversation) :
  fst (getOrCreateConversation p now interleaved itemId ownerId renterId db) = Some c ->
  let db' := snd (getOrCreateConversation p now interleaved itemId ownerId renterId db) in
  In c (conversations db')
  /\ conversation_key c = (itemId, ownerId, renterId)
  /\ conversations_select p c = true
  /\ ((In c (conversations db) /\ db' = db)
      \/ conversations db' = (conversations (interleaved db) ++ [c])%list).
Proof.
  intros Hfst db'.
  destruct (getOrCreateConversation_Some _ _ _ _ _ _ _ _ Hfst) as (Hin & Hk & Hsel).
  split; [exact Hin|]. split; [exact Hk|]. split; [exact Hsel|].
  subst db'. revert Hfst. unfold getOrCreateConversation.
  destruct (single _) as [c0|] eqn:Hs; simpl.
  - intros [= ->]. left. split; [|reflexivity].
    unfold single in Hs.
    destruct (List.filter _ _) as [|c1 [|? ?]] eqn:Hf; try discriminate.
    injection Hs as ->.
    assert (Hc : In c (c :: nil)) by (left; reflexivity).
    rewrite <- Hf in Hc. apply filter_In in Hc as [Hc _].
    unfold select_conversations in Hc. apply filter_In in Hc as [Hc _]. exact Hc.
  - destruct (insert_conversation _ _ _ _ _ _) as [[c1 db1]|e] eqn:Hins; simpl;
      [|discriminate].
    intros [= ->]. right.
    exact (proj1 (insert_conversation_conversations _ _ _ _ _ _ _ _ Hins)).
Qed.

Lemma getOrCreateConversation_returns_stored_witness :
  fst (getOrCreateConversation (Authenticated 2) 7 id 10 1 2 db_thread) = Some thread
  /\ In thread (conversations
                  (snd (getOrCreateConversation (Authenticated 2) 7 id 10 1 2 db_thread)))
  /\ conversation_key thread = (10, 1, 2)%nat.
Proof.
  assert (H : fst (getOrCreateConversation (Authenticated 2) 7 id 10 1 2 db_thread)
              = Some thread) by reflexivity.
  split; [exact H|].
  destruct (getOrCreateConversation_returns_stored (Authenticated 2) 7 id 10 1 2 db_thread
              thread H) as (Hin & Hk & _).
  cbv zeta in Hin.
  split; assumption.
Defined.

(** X11.  Asking again finds the same row: after a call that returned
    a conversation, a second call for the same triple in the same
    session returns that conversation and writes nothing. *)
Theorem getOrCreateConversation_again (p : principal) (now now' : timestamptz)
    (itemId ownerId renterId : uuid) (db : DB) (c : conversation) :
  wf_db db ->
  fst (getOrCreateConversation p now id itemId ownerId renterId db) = Some c ->
  let db' := snd (getOrCreateConversation p now id itemId ownerId renterId db) in
  getOrCreateConversation p now' id itemId ownerId renterId db' = (Some c, db').
Proof.
  intros Hwf Hfirst db'.
  pose proof (getOrCreateConversation_wf p now id itemId ownerId renterId db Hwf Hwf) as Hwf'.
  destruct (getOrCreateConversation_Some p now id itemId ownerId renterId db c
              Hfirst) as (Hin & Hk & Hsel).
  fold db' in Hwf', Hin.
  unfold getOrCreateConversation at 1.
  assert (Hfind : List.filter
                    (fun x => (c_item_id x =? itemId)%nat && (c_owner_id x =? ownerId)%nat
                              && (c_renter_id x =? renterId)%nat)
                    (select_conversations p db') = [c]).
  { unfold select_conversations. rewrite filter_filter_andb.
    rewrite <- (filter_unique_key conversation_key (conversations db') c
                  (wf_db_conversations_key db' Hwf') Hin).
    apply filter_ext_in. intros x Hx. rewrite Hk.
    unfold conversation_key.
    destruct (Nat.eqb_spec (c_item_id x) itemId) as [Hi|Hi],
             (Nat.eqb_spec (c_owner_id x) ownerId) as [Ho|Ho],
             (Nat.eqb_spec (c_renter_id x) renterId) as [Hr|Hr]; simpl;
      rewrite ?andb_false_r;
      try (rewrite bool_decide_eq_false_2 by congruence; reflexivity).
    rewrite bool_decide_eq_true_2 by congruence.
    assert (x = c) as ->.
    { apply (NoDup_fmap_eq conversation_key (conversations db'));
        [exact (wf_db_conversations_key db' Hwf') | assumption..|].
      rewrite Hk. unfold conversation_key. congruence. }
    rewrite Hsel. reflexivity. }
  rewrite Hfind. reflexivity.
Qed.

Lemma getOrCreateConversation_again_witness :
  wf_db db_listed
  /\ exists c,
       fst (getOrCreateConversation TableOwner 7 id 10 1 2 db_listed) = Some c
       /\ In c (conversations (snd (getOrCreateConversation TableOwner 7 id 10 1 2 db_listed)))
       /\ getOrCreateConversation TableOwner 8 id 10 1 2
            (snd (getOrCreateConversation TableOwner 7 id 10 1 2 db_listed))
          = (Some c, snd (getOrCreateConversation TableOwner 7 id 10 1 2 db_listed)).
Proof.
  assert (Hwf : wf_db db_listed) by (apply (bool_decide_unpack _); vm_compute; exact I).
  split; [exact Hwf|]. eexists.
  assert (H : fst (getOrCreateConversation TableOwner 7 id 10 1 2 db_listed)
              = Some (mk_conversation 11 10 1 2 None 7 7 7)) by (vm_compute; reflexivity).
  split; [exact H|]. split; [vm_compute; left; reflexivity|].
  exact (getOrCreateConversation_again TableOwner 7 8 10 1 2 db_listed _ Hwf H).
Defined.

(** X12.  A session of a user who is neither the owner nor the renter
    asked for gets [null] and writes nothing, whether the conversation
    exists or not: it can neither read nor create a thread between two
    other users. *)
Theorem getOrCreateConversation_third_party (uid : uuid) (now : timestamptz)
    (interleaved : DB -> DB) (itemId ownerId renterId : uuid) (db : DB) :
  uid <> ownerId -> uid <> renterId ->
  getOrCreateConversation (Authenticated uid) now interleaved itemId ownerId renterId db
  = (None, interleaved db).
Proof.
  intros Ho Hr. unfold getOrCreateConversation.
  assert (Hfind : List.filter
                    (fun x => (c_item_id x =? itemId)%nat && (c_owner_id x =? ownerId)%nat
                              && (c_renter_id x =? renterId)%nat)
                    (select_conversations (Authenticated uid) db) = []).
  { apply filter_nil_iff. intros x Hx. unfold select_conversations in Hx.
    apply filter_In in Hx as [_ Hsel]. unfold conversations_select in Hsel. simpl in Hsel.
    unfold is_owner_or_renter in Hsel.
    destruct (Nat.eqb_spec (c_owner_id x) ownerId) as [Hxo|Hxo];
      [|rewrite andb_false_r; reflexivity].
    destruct (Nat.eqb_spec (c_renter_id x) renterId) as [Hxr|Hxr];
      [|rewrite andb_false_r; reflexivity].
    exfalso. apply orb_true_iff in Hsel as [H|H]; apply Nat.eqb_eq in H; congruence. }
  rewrite Hfind. simpl.
  unfold insert_conversation. cbv zeta. unfold conversations_insert, is_owner_or_renter.
  simpl. rewrite (proj2 (Nat.eqb_neq ownerId uid)), (proj2 (Nat.eqb_neq renterId uid))
    by congruence.
  reflexivity.
Qed.

Lemma getOrCreateConversation_third_party_witness :
  In thread (conversations db_thread)
  /\ getOrCreateConversation (Authenticated 3) 7 id 10 1 2 db_thread = (None, db_thread).
Proof.
  split; [left; reflexivity|].
  apply (getOrCreateConversation_third_party 3 7 id 10 1 2 db_thread); discriminate.
Defined.

(** X13.  No thread is created about an item that is not listed, or
    between parties that are not users: in a database that satisfies its
    constraints the call answers [null] and writes nothing. *)
Theorem getOrCreateConversation_dangling (p : principal) (now : timestamptz)
    (itemId ownerId renterId : uuid) (db : DB) :
  wf_db db ->
  itemId ∉ i_id <$> clothing_items db \/ ownerId ∉ users db \/ renterId ∉ users db ->
  getOrCreateConversation p now id itemId ownerId renterId db = (None, db).
Proof.
  intros Hwf Hmissing. unfold getOrCreateConversation.
  assert (Hfk : forall c, In c (conversations db) ->
                          c_item_id c ∈ i_id <$> clothing_items db
                          /\ c_owner_id c ∈ users db /\ c_renter_id c ∈ users db).
  { intros c Hc. unfold wf_db in Hwf. decompose [and] Hwf.
    match goal with H : conversations_fkey db |- _ =>
      unfold conversations_fkey in H; rewrite Forall_forall in H;
      destruct (H c (proj2 (list_elem_of_In _ _) Hc)) as (? & ? & ? & _) end.
    auto. }
  assert (Hfind : List.filter
                    (fun x => (c_item_id x =? itemId)%nat && (c_owner_id x =? ownerId)%nat
                              && (c_renter_id x =? renterId)%nat)
                    (select_conversations p db) = []).
  { apply filter_nil_iff. intros x Hx. unfold select_conversations in Hx.
    apply filter_In in Hx as [Hx _]. destruct (Hfk x Hx) as (Hi & Ho & Hr).
    destruct (Nat.eqb_spec (c_item_id x) itemId) as [Hxi|Hxi]; [|reflexivity].
    destruct (Nat.eqb_spec (c_owner_id x) ownerId) as [Hxo|Hxo]; [|reflexivity].
    destruct (Nat.eqb_spec (c_renter_id x) renterId) as [Hxr|Hxr]; [|reflexivity].
    exfalso. subst. tauto. }
  rewrite Hfind. simpl. unfold id.
  destruct (insert_conversation _ _ _ _ _ db) as [[c db']|e] eqn:Hins; [|reflexivity].
  exfalso. unfold insert_conversation in Hins. cbv zeta in Hins.
  bind_inv Hins. bind_inv Hins. apply check_constraints_unit in Hstep0.
  unfold wf_db in Hstep0. decompose [and] Hstep0.
  match goal with H : conversations_fkey _ |- _ =>
    unfold conversations_fkey in H; simpl in H; apply Forall_app in H as [_ H];
    apply Forall_inv in H; simpl in H; destruct H as (? & ? & ? & _) end.
  tauto.
Qed.

Lemma getOrCreateConversation_dangling_witness :
  wf_db db_listed /\ (99%nat ∉ i_id <$> clothing_items db_listed)
  /\ getOrCreateConversation TableOwner 7 id 99 1 2 db_listed = (None, db_listed).
Proof.
  assert (Hwf : wf_db db_listed) by (apply (bool_decide_unpack _); vm_compute; exact I).
  assert (Hno : 99%nat ∉ i_id <$> clothing_items db_listed)
    by (apply (bool_decide_unpack _); vm_compute; exact I).
  split; [exact Hwf|]. split; [exact Hno|].
  exact (getOrCreateConversation_dangling TableOwner 7 99 1 2 db_listed Hwf (or_introl Hno)).
Defined.

(** ** [calculatePrice] and [handleSubmit] *)

Lemma ceil_div_exact (k : Z) : ceil_div (k * 86400000) (1000 * 60 * 60 * 24) = k.
Proof.
  unfold ceil_div. change (1000 * 60 * 60 * 24) with 86400000.
  rewrite <- Z.mul_opp_l, Z.div_mul by lia. lia.
Qed.

Lemma ceil_div_pos (a : Z) : 0 < ceil_div a (1000 * 60 * 60 * 24) <-> 0 < a.
Proof.
  unfold ceil_div. change (1000 * 60 * 60 * 24) with 86400000.
  pose proof (Z.div_mod (- a) 86400000 ltac:(lia)) as Hdm.
  pose proof (Z.mod_pos_bound (- a) 86400000 ltac:(lia)) as Hm. lia.
Qed.

(** Midnights are whole days apart, and a whole number of days is an
    even number of milliseconds: their difference is not rounded. *)
Lemma Number_sub_days (s e : Z) :
  Number_sub (e * 86400000) (s * 86400000) = (e - s) * 86400000.
Proof.
  unfold Number_sub. cbv zeta.
  replace (e * 86400000 - s * 86400000) with ((e - s) * 86400000) by lia.
  destruct (Z.abs _ <=? _); [reflexivity|].
  rewrite Z.even_mul, orb_true_r. reflexivity.
Qed.

Lemma parse_date_nonempty (s : string) (d : Z) : parse_date s = Some d -> (s =? "")%string = false.
Proof. destruct s; [discriminate | reflexivity]. Qed.

(** The database reads a date string with a year of four digits as the
    day that JavaScript reads it as. *)
Lemma parse_date_date_in (s : string) (d d' : Z) :
  parse_date s = Some d -> date_in s = Some d' -> d' = d.
Proof.
  unfold parse_date, date_in. destruct (parse_ymd s) as [[[n y] day]|]; [|discriminate].
  intros Hd Hd'. destruct (_ && _); [|discriminate]. injection Hd' as <-.
  destruct n as [|[|[|[|[|n]]]]]; try discriminate. injection Hd as <-. reflexivity.
Qed.

Lemma calculatePrice_parsed `{Engine} (item : clothing_item) (start end_ : string) (s e : Z) :
  parse_date start = Some s -> parse_date end_ = Some e ->
  calculatePrice item start end_
  = if s <? e then (Number_of_Z (e - s) * i_price_per_day item)%number else 0%number.
Proof.
  intros Hs He. unfold calculatePrice, Date_getTime.
  rewrite Hs, He, (parse_date_nonempty _ _ Hs), (parse_date_nonempty _ _ He).
  cbn [negb andb]. cbv zeta. rewrite Number_sub_days, ceil_div_exact.
  destruct (Z.ltb_spec 0 (e - s)), (Z.ltb_spec s e); try reflexivity; lia.
Qed.

(** Whatever the strings and the engine, the price is 0 or the price of
    a whole number of days, one at least. *)
Lemma calculatePrice_whole `{Engine} (item : clothing_item) (start end_ : string) :
  calculatePrice item start end_ = 0%number
  \/ exists startD endD days,
       Date_getTime start = Some startD /\ Date_getTime end_ = Some endD
       /\ days = ceil_div (Number_sub endD startD) (1000 * 60 * 60 * 24) /\ 0 < days
       /\ calculatePrice item start end_ = (Number_of_Z days * i_price_per_day item)%number.
Proof.
  unfold calculatePrice. destruct (negb _ && negb _); [|left; reflexivity].
  destruct (Date_getTime start) as [startD|]; [|left; reflexivity].
  destruct (Date_getTime end_) as [endD|]; [|left; reflexivity].
  cbv zeta. destruct (Z.ltb_spec 0 (ceil_div (Number_sub endD startD) (1000 * 60 * 60 * 24)));
    [|left; reflexivity].
  right. exists startD, endD, (ceil_div (Number_sub endD startD) (1000 * 60 * 60 * 24)).
  split; [reflexivity|]. split; [reflexivity|]. split; [reflexivity|].
  split; [assumption | reflexivity].
Qed.

(** X14.  For a start and an end date with years of four digits, as the
    date inputs hand them over, the price is the number of days from the
    start to the end times the price per day, in binary64, when the end
    is the later day, and 0 when it is the same day or an earlier one.
    With a date unset the price is 0.  Whatever the two strings are, and
    whatever the engine makes of them, the price is 0 or the price of a
    whole number of days, at least one. *)
Theorem calculatePrice_days `{Engine} (item : clothing_item) (start end_ : string) (s e : Z) :
  parse_date start = Some s -> parse_date end_ = Some e ->
  calculatePrice item start end_
  = (if s <? e then (Number_of_Z (e - s) * i_price_per_day item)%number else 0%number)
  /\ calculatePrice item start "" = 0%number
  /\ calculatePrice item "" end_ = 0%number
  /\ (forall a b,
        calculatePrice item a b = 0%number
        \/ exists days, 0 < days
                        /\ calculatePrice item a b
                           = (Number_of_Z days * i_price_per_day item)%number).
Proof.
  intros Hs He. split; [exact (calculatePrice_parsed item start end_ s e Hs He)|].
  split; [unfold calculatePrice; rewrite andb_false_r; reflexivity|].
  split; [reflexivity|].
  intros a b. destruct (calculatePrice_whole item a b)
    as [H0|(startD & endD & days & _ & _ & _ & Hpos & Hprice)]; [left; exact H0|].
  right. exists days. split; assumption.
Qed.

Lemma calculatePrice_days_witness :
  let scarf := mk_clothing_item 11 "Scarf" (1 / 10)%number 1 in
  parse_date "2024-06-01" = Some 19875 /\ parse_date "2024-06-04" = Some 19878
  /\ @calculatePrice format_only scarf "2024-06-01" "2024-06-04"
     = S754_finite false 5404319552844596 (-54)
  /\ (3 / 10)%number = S754_finite false 5404319552844595 (-54)
  /\ @calculatePrice format_only scarf "2024-06-04" "2024-06-01" = 0%number
  /\ @calculatePrice format_only jacket "2024-06-01" "2024-06-04" = 300.
Proof.
  cbv zeta.
  assert (Hs : parse_date "2024-06-01" = Some 19875) by reflexivity.
  assert (He : parse_date "2024-06-04" = Some 19878) by reflexivity.
  split; [exact Hs|]. split; [exact He|].
  split; [exact (proj1 (@calculatePrice_days
                          format_only (mk_clothing_item 11 "Scarf" (1 / 10)%number 1)
                          _ _ _ _ Hs He))|].
  split; [reflexivity|].
  split; [exact (proj1 (@calculatePrice_days
                          format_only (mk_clothing_item 11 "Scarf" (1 / 10)%number 1)
                          _ _ _ _ He Hs))|].
  exact (proj1 (@calculatePrice_days format_only jacket _ _ _ _ Hs He)).
Defined.

Lemma form_after_total `{Engine} (item : clothing_item) (events : list form_event) :
  totalPrice (form_after item events)
  = calculatePrice item (startDate (form_after item events))
                   (endDate (form_after item events)).
Proof.
  unfold form_after.
  assert (Hall : forall f, totalPrice f = calculatePrice item (startDate f) (endDate f) ->
                           totalPrice (fold_left (form_step item) events f)
                           = calculatePrice item
                               (startDate (fold_left (form_step item) events f))
                               (endDate (fold_left (form_step item) events f))).
  { induction events as [|e events IH]; intros f Hf; simpl; [exact Hf|].
    apply IH. destruct e; reflexivity. }
  apply Hall. reflexivity.
Qed.

Lemma insert_conversation_rentals (p : principal) (now : timestamptz)
    (item_id owner_id renter_id : uuid) (db : DB) (c : conversation) (db' : DB) :
  insert_conversation p now item_id owner_id renter_id db = Ok (c, db') ->
  rentals db' = rentals db.
Proof.
  unfold insert_conversation. cbv zeta. intros H.
  bind_inv H. bind_inv H. bind_inv H. injection H as _ <-.
  unfold create_conversation_participants in Hstep1.
  bind_inv Hstep1. bind_inv Hstep1. injection Hstep1 as <-.
  apply insert_conversation_participant_Ok in Hstep2 as [[_ ->] | [_ ->]];
    apply insert_conversation_participant_Ok in Hstep3 as [[_ ->] | [_ ->]]; reflexivity.
Qed.

(** The chat part of a submit leaves the rentals alone. *)
Lemma chat_keeps_rentals (p : principal) (now2 now3 : timestamptz)
    (itemId ownerId renterId senderId : uuid) (text : content) (messageType : string)
    (metadata : json) (shown : toast) (db : DB) :
  rentals (snd (let (conversation, db2) :=
                  getOrCreateConversation p now2 id itemId ownerId renterId db in
                (shown,
                 match conversation with
                 | Some conversation =>
                     snd (sendMessage p now3 (c_id conversation) senderId text messageType
                                      metadata db2)
                 | None => db2
                 end)))
  = rentals db.
Proof.
  unfold getOrCreateConversation.
  destruct (single _) as [c|]; simpl; [apply sendMessage_rentals|].
  cbv [id]. destruct (insert_conversation _ _ _ _ _ db) as [[c db2]|e] eqn:Hins; simpl.
  - rewrite sendMessage_rentals. exact (insert_conversation_rentals _ _ _ _ _ _ _ _ Hins).
  - reflexivity.
Qed.

(** X15.  Whatever the user picked in the two date inputs, each pick
    the empty string or a date string, and whatever the engine makes of
    it, a submit stores at most one rental, and any rental it stores is
    pending, is for the item of the modal and its owner, has
    the signed-in user as renter, carries two dates of which the end is
    not before the start, and has as its total the price that
    [calculatePrice] gave for these two dates, a finite number that is
    not 0 or less.  When the years of the dates have four digits the end
    is strictly after the start, and the total is the number of days
    between them times the price per day.  Without a signed-in user, or
    with a total of 0 or less, nothing is written. *)
Theorem handleSubmit_rental `{Engine} (item : clothing_item) (user : option uuid)
    (now1 now2 now3 : timestamptz) (events : list form_event) (db : DB) :
  Forall (fun e => date_input_value (picked e)) events ->
  let f := form_after item events in
  let db' := snd (handleSubmit item user now1 now2 now3 id f db) in
  (rentals db' = rentals db
   \/ exists r first last,
        rentals db' = (rentals db ++ [r])%list
        /\ r_status r = pending /\ r_item_id r = i_id item
        /\ r_owner_id r = i_owner_id item /\ user = Some (r_renter_id r)
        /\ date_in (r_start_date r) = Some first /\ date_in (r_end_date r) = Some last
        /\ first <= last
        /\ r_total_price r = calculatePrice item (r_start_date r) (r_end_date r)
        /\ (r_total_price r <=? 0)%number = false
        /\ isFinite (r_total_price r) = true
        /\ (forall s e,
              parse_date (r_start_date r) = Some s -> parse_date (r_end_date r) = Some e ->
              first = s /\ last = e /\ s < e
              /\ r_total_price r = (Number_of_Z (e - s) * i_price_per_day item)%number))
  /\ (user = None \/ (totalPrice f <=? 0)%number = true -> db' = db).
Proof.
  intros _ f db'. subst db'. unfold handleSubmit.
  destruct (totalPrice f <=? 0)%number eqn:Hguard; [simpl; auto|].
  destruct user as [user_id|]; [|simpl; auto].
  split; [|intros [Hu|Hu]; discriminate].
  destruct (insert_rental _ _ _ _ _ _ _ _ _ db) as [db1|e] eqn:Hrent; [|simpl; auto].
  right.
  apply insert_rental_Ok in Hrent as (total & Htotal & Hdb1 & Hwf1).
  unfold JSON_number in Htotal.
  destruct (isFinite (totalPrice f)) eqn:Hfinite; [|discriminate].
  injection Htotal as <-.
  set (r := mk_rental (gen_random_uuid db) (i_id item) user_id (i_owner_id item)
                      (startDate f) (endDate f) (totalPrice f) pending now1) in *.
  assert (Hdates : check_dates r).
  { assert (Hall : rentals_check_dates db1) by (unfold wf_db in Hwf1; tauto).
    unfold rentals_check_dates in Hall. rewrite Hdb1 in Hall. cbn [rentals set_rentals] in Hall.
    apply Forall_app in Hall as [_ Hall]. apply Forall_inv in Hall. exact Hall. }
  unfold check_dates in Hdates. cbn [r r_start_date r_end_date] in Hdates.
  destruct (date_in (startDate f)) as [first|] eqn:Hfirst; [|contradiction].
  destruct (date_in (endDate f)) as [last|] eqn:Hlast; [|contradiction].
  pose proof (form_after_total item events) as Hprice. fold f in Hprice.
  exists r, first, last.
  split; [rewrite chat_keeps_rentals, Hdb1; reflexivity|].
  cbn [r r_status r_item_id r_owner_id r_renter_id r_start_date r_end_date r_total_price].
  repeat (split; [first [reflexivity | assumption]|]).
  intros s e Hs He.
  pose proof (parse_date_date_in _ _ _ Hs Hfirst) as ->.
  pose proof (parse_date_date_in _ _ _ He Hlast) as ->.
  rewrite (calculatePrice_parsed item _ _ s e Hs He) in Hprice.
  destruct (Z.ltb_spec s e) as [Hlt|Hge].
  - repeat split; assumption.
  - exfalso. rewrite Hprice in Hguard. vm_compute in Hguard. discriminate.
Qed.

Lemma handleSubmit_rental_witness :
  let events := [PickEnd "10000-01-02"; PickStart "10000-01-01"; PickEnd "10000-01-03"] in
  let db' := snd (handleSubmit jacket (Some 2%nat) 1000 2000 3000 id
                               (@form_after long_years jacket events) db_listed) in
  Forall (fun e => date_input_value (picked e)) events
  /\ rentals db' = [mk_rental 11 10 2 1 "10000-01-01" "10000-01-03" 200 pending 1000]
  /\ handleSubmit jacket (Some 2%nat) 1000 2000 3000 id
                  (@form_after format_only jacket events) db_listed
     = (toast_error "Please select valid dates", db_listed)
  /\ exists r first last,
       rentals db' = (rentals db_listed ++ [r])%list
       /\ date_in (r_start_date r) = Some first /\ date_in (r_end_date r) = Some last
       /\ first <= last
       /\ (r_total_price r <=? 0)%number = false.
Proof.
  cbv zeta.
  assert (Hpicks : Forall (fun e => date_input_value (picked e))
                          [PickEnd "10000-01-02"; PickStart "10000-01-01";
                           PickEnd "10000-01-03"])
    by (repeat (apply Forall_cons; split; [right; vm_compute; eauto|]); constructor).
  split; [exact Hpicks|]. split; [vm_compute; reflexivity|].
  split; [vm_compute; reflexivity|].
  destruct (@handleSubmit_rental long_years jacket (Some 2%nat) 1000 2000 3000 _ db_listed
              Hpicks) as [[Hsame|(r & first & last & Hr & _ & _ & _ & _ & Hf & Hl & Hle & _
                                   & Hpos & _)] _].
  - vm_compute in Hsame. discriminate.
  - exists r, first, last. auto.
Defined.

(** ** Subscriptions: [cleanup] and the cancellation functions *)

(** X16.  [cleanup] releases exactly the channels that the map of the
    service holds: none of them is joined afterwards, every other joined
    channel stays joined, no channel is added, the map is empty, and a
    second [cleanup] changes nothing. *)
Theorem cleanup_releases_registered (rt : Runtime) :
  (forall k s, subscriptions rt !! k = Some s -> s ∉ channels (cleanup rt))
  /\ (forall s, s ∈ channels (cleanup rt) -> s ∈ channels rt)
  /\ (forall s, s ∈ channels rt -> (forall k, subscriptions rt !! k <> Some s) ->
                s ∈ channels (cleanup rt))
  /\ subscriptions (cleanup rt) = ∅
  /\ cleanup (cleanup rt) = cleanup rt.
Proof.
  split; [|split; [|split; [|split]]].
  - intros k s Hk Hin. apply cleanup_channels in Hin as [_ Hno]. exact (Hno k Hk).
  - intros s Hin. apply cleanup_channels in Hin. tauto.
  - intros s Hin Hno. apply cleanup_channels. auto.
  - reflexivity.
  - apply cleanup_idempotent.
Qed.

(** X17.  Calling the cancellation function that a subscribe method
    returned leaves the channel of its topic, whoever else subscribed to
    that topic: after [subscribeToConversations] and its cancellation the
    joined channels are those before without the feed of that user, so
    they are the channels before exactly when that feed was not joined
    yet, and an earlier subscription to the same feed is gone with it;
    the map is untouched.  After [subscribeToMessages] and its
    cancellation the channel of the conversation is left and the map has
    no entry for it; channels and map are as before when the
    conversation had neither. *)
Theorem subscribe_then_cancel (actions : list action) (userId conversationId : uuid) :
  let rt := run actions new_Runtime in
  let feed := subscribeToConversations userId rt in
  let chat := subscribeToMessages conversationId rt in
  channels (cancel (fst feed) (snd feed)) = channels rt ∖ {[ConversationsTopic userId]}
  /\ subscriptions (cancel (fst feed) (snd feed)) = subscriptions rt
  /\ (channels (cancel (fst feed) (snd feed)) = channels rt
      <-> ConversationsTopic userId ∉ channels rt)
  /\ channels (cancel (fst chat) (snd chat)) = channels rt ∖ {[MessagesTopic conversationId]}
  /\ subscriptions (cancel (fst chat) (snd chat)) = delete conversationId (subscriptions rt)
  /\ ((MessagesTopic conversationId ∉ channels rt) ->
      subscriptions rt !! conversationId = None ->
      channels (cancel (fst chat) (snd chat)) = channels rt
      /\ subscriptions (cancel (fst chat) (snd chat)) = subscriptions rt).
Proof.
  intros rt feed chat.
  assert (Hch : forall t : topic, unsubscribe t ({[t]} ∪ channels rt) = channels rt ∖ {[t]}).
  { intros t. unfold unsubscribe. apply set_eq. intros s.
    rewrite !elem_of_difference, elem_of_union, elem_of_singleton. tauto. }
  assert (Hsame : forall t : topic, channels rt ∖ {[t]} = channels rt <-> t ∉ channels rt).
  { intros t. split.
    - intros Heq Hin. rewrite <- Heq in Hin.
      apply elem_of_difference in Hin as [_ Hin]. apply Hin, elem_of_singleton. reflexivity.
    - intros Hno. apply set_eq. intros s.
      rewrite elem_of_difference, elem_of_singleton. split; [tauto|].
      intros Hs. split; [exact Hs|]. intros ->. contradiction. }
  split; [apply Hch|]. split; [reflexivity|].
  split; [simpl; rewrite Hch; apply Hsame|].
  split; [apply Hch|].
  split; [simpl; apply delete_insert_eq|].
  intros Hno Hnone. split; [simpl; rewrite Hch; apply Hsame; exact Hno|].
  simpl. rewrite delete_insert_eq. apply delete_id. exact Hnone.
Qed.

(** ** [handleStartChat] *)

(** X18.  The chat button of an item card never writes: for the owner
    it does nothing; for anyone else it opens a thread only when one is
    stored for this item, its owner and the viewer, and otherwise shows
    "Unable to start chat", because the session of the viewer cannot
    create the thread with the owner. *)
Theorem handleStartChat_never_writes (item : clothing_item) (currentUserId : uuid)
    (onOpenChat : bool) (now : timestamptz) (db : DB) :
  snd (handleStartChat item currentUserId onOpenChat now id db) = db
  /\ (forall conversationId,
        fst (handleStartChat item currentUserId onOpenChat now id db)
        = chat_opened conversationId ->
        i_owner_id item <> currentUserId
        /\ exists c, In c (conversations db) /\ c_id c = conversationId
                     /\ conversation_key c = (i_id item, i_owner_id item, currentUserId)).
Proof.
  unfold handleStartChat.
  destruct (Nat.eqb_spec (i_owner_id item) currentUserId) as [Heq|Hne];
    [split; [reflexivity | discriminate]|].
  destruct (getOrCreateConversation _ _ _ _ _ _ db) as [[c|] db'] eqn:Hget.
  - assert (Hfst : fst (getOrCreateConversation (Authenticated currentUserId) now id (i_id item)
                          (i_owner_id item) currentUserId db) = Some c)
      by (rewrite Hget; reflexivity).
    pose proof (getOrCreateConversation_Some _ _ _ _ _ _ _ _ Hfst) as (Hin & Hk & _).
    rewrite Hget in Hin. simpl in Hin.
    assert (Hdb : db' = db).
    { unfold getOrCreateConversation in Hget. destruct (single _); [congruence|].
      cbv [id] in Hget.
      destruct (insert_conversation_two_parties currentUserId now (i_id item)
                  (i_owner_id item) currentUserId db Hne) as [e He].
      rewrite He in Hget. congruence. }
    subst db'. destruct onOpenChat; simpl; (split; [reflexivity|]); [|discriminate].
    intros cid [= <-]. split; [exact Hne|]. exists c. auto.
  - assert (Hdb : db' = db).
    { unfold getOrCreateConversation in Hget. destruct (single _); [congruence|].
      cbv [id] in Hget. destruct (insert_conversation _ _ _ _ _ db) as [[c db1]|e];
        congruence. }
    subst db'. split; [reflexivity | discriminate].
Qed.

(** ** [ChatModal]: the list under live updates *)

Lemma sort_insert_perm (x : chat_entry) (l : list chat_entry) : sort_insert x l ≡ₚ x :: l.
Proof.
  induction l as [|y l IH]; simpl; [reflexivity|].
  destruct (_ <=? _); [reflexivity|]. rewrite IH. apply Permutation_swap.
Qed.

Lemma sort_newest_first_perm (l : list chat_entry) : sort_newest_first l ≡ₚ l.
Proof.
  induction l as [|x l IH]; simpl; [reflexivity|].
  rewrite sort_insert_perm, IH. reflexivity.
Qed.

Lemma sort_insert_sorted (x : chat_entry) (l : list chat_entry) :
  StronglySorted (descending entry_time) l ->
  StronglySorted (descending entry_time) (sort_insert x l).
Proof.
  induction l as [|y l IH]; simpl; intros Hs.
  - constructor; constructor.
  - apply StronglySorted_inv in Hs as [Hl Hy].
    destruct (Z.leb_spec (entry_time y) (entry_time x)) as [Hle|Hgt].
    + constructor; [constructor; assumption|].
      constructor; [exact Hle|].
      rewrite Forall_forall in Hy |- *. intros z Hz. specialize (Hy z Hz).
      unfold descending in *. lia.
    + constructor; [apply IH; exact Hl|].
      rewrite Forall_forall in Hy |- *. intros z Hz.
      rewrite sort_insert_perm in Hz. apply elem_of_cons in Hz as [->|Hz].
      * unfold descending. lia.
      * exact (Hy z Hz).
Qed.

Lemma sort_newest_first_sorted (l : list chat_entry) :
  StronglySorted (descending entry_time) (sort_newest_first l).
Proof.
  induction l as [|x l IH]; simpl; [constructor|]. apply sort_insert_sorted, IH.
Qed.

(** The sort is stable: the entries of one millisecond keep the order
    they had. *)
Lemma sort_insert_stable (t : Z) (x : chat_entry) (l : list chat_entry) :
  List.filter (fun e => entry_time e =? t) (sort_insert x l)
  = List.filter (fun e => entry_time e =? t) (x :: l).
Proof.
  induction l as [|y l IH]; [reflexivity|]. cbn [sort_insert].
  destruct (Z.leb_spec (entry_time y) (entry_time x)) as [Hle|Hgt]; [reflexivity|].
  cbn [List.filter] in IH |- *. rewrite IH.
  destruct (Z.eqb_spec (entry_time x) t) as [Hx|Hx]; [|reflexivity].
  destruct (Z.eqb_spec (entry_time y) t) as [Hy|Hy]; [lia | reflexivity].
Qed.

Lemma sort_newest_first_stable (t : Z) (l : list chat_entry) :
  List.filter (fun e => entry_time e =? t) (sort_newest_first l)
  = List.filter (fun e => entry_time e =? t) l.
Proof.
  induction l as [|x l IH]; [reflexivity|].
  cbn [sort_newest_first foldr]. fold (sort_newest_first l).
  rewrite sort_insert_stable. cbn [List.filter]. rewrite IH. reflexivity.
Qed.

(** Replacing the one entry of a key in place. *)
Lemma insert_map_if {A} (f : A -> bool) (x : A) (l1 l2 : list A) (y : A) :
  (forall z, In z l1 -> f z = false) -> (forall z, In z l2 -> f z = false) -> f y = true ->
  map (fun z => if f z then x else z) (l1 ++ y :: l2)%list = (l1 ++ x :: l2)%list.
Proof.
  intros H1 H2 Hy. rewrite map_app. cbn [map]. rewrite Hy.
  rewrite (map_if_id f (fun _ => x) l1 H1), (map_if_id f (fun _ => x) l2 H2). reflexivity.
Qed.

Lemma findIndex_Some {A} (f : A -> bool) (l : list A) (i : nat) (x : A) :
  findIndex f l = Some i ->
  exists l1 y l2, l = (l1 ++ y :: l2)%list /\ f y = true
                  /\ <[i := x]> l = (l1 ++ x :: l2)%list.
Proof.
  revert i. induction l as [|z l IH]; simpl; intros i H; [discriminate|].
  destruct (f z) eqn:Hz.
  - injection H as <-. exists [], z, l. auto.
  - destruct (findIndex f l) as [j|]; [|discriminate]. injection H as <-.
    destruct (IH j eq_refl) as (l1 & y & l2 & -> & Hy & Hins).
    exists (z :: l1), y, l2. simpl. rewrite Hins. auto.
Qed.

Lemma findIndex_None {A} (f : A -> bool) (l : list A) :
  findIndex f l = None -> forall x, In x l -> f x = false.
Proof.
  induction l as [|z l IH]; simpl; intros H x Hx; [contradiction|].
  destruct (f z) eqn:Hz; [discriminate|].
  destruct (findIndex f l); [discriminate|].
  destruct Hx as [<-|Hx]; [exact Hz | exact (IH eq_refl x Hx)].
Qed.

(** X19.  When the live feed delivers a conversation row, the list of
    the chat window keeps showing every conversation once: the entry
    with that identifier is replaced by the bare row, so it no longer
    carries an unread count or a last message, every other entry is
    kept in place, and the list is then sorted newest first by the
    whole milliseconds of [last_message_at], entries of the same
    millisecond keeping their order; a row that was not listed is put in
    front. *)
Theorem onConversationChange_list (updatedConversation : conversation)
    (prev : list chat_entry) :
  NoDup (c_id <$> (e_conversation <$> prev)) ->
  let next := onConversationChange updatedConversation prev in
  NoDup (c_id <$> (e_conversation <$> next))
  /\ (forall e, In e next -> c_id (e_conversation e) = c_id updatedConversation ->
                e = entry_of_row updatedConversation)
  /\ In (entry_of_row updatedConversation) next
  /\ (forall e, c_id (e_conversation e) <> c_id updatedConversation ->
                (In e next <-> In e prev))
  /\ (c_id updatedConversation ∈ c_id <$> (e_conversation <$> prev) ->
      length next = length prev
      /\ StronglySorted (fun a b => entry_time b <= entry_time a) next
      /\ forall t,
           List.filter (fun e => entry_time e =? t) next
           = List.filter (fun e => entry_time e =? t)
               (map (fun e => if (c_id (e_conversation e) =? c_id updatedConversation)%nat
                              then entry_of_row updatedConversation else e)
                    prev))
  /\ (c_id updatedConversation ∉ c_id <$> (e_conversation <$> prev) ->
      next = entry_of_row updatedConversation :: prev).
Proof.
  intros Hnd next. subst next. unfold onConversationChange.
  set (f := fun c : chat_entry => (c_id (e_conversation c) =? c_id updatedConversation)%nat).
  set (new := entry_of_row updatedConversation).
  destruct (findIndex f prev) as [index|] eqn:Hfind.
  - destruct (findIndex_Some f prev index new Hfind) as (l1 & old & l2 & -> & Hold & ->).
    unfold f in Hold. apply Nat.eqb_eq in Hold.
    assert (Hids : c_id <$> (e_conversation <$> (l1 ++ new :: l2)%list)
                   = c_id <$> (e_conversation <$> (l1 ++ old :: l2)%list)).
    { rewrite !fmap_app, !fmap_cons. simpl. rewrite Hold. reflexivity. }
    assert (Hnd' : NoDup (c_id <$> (e_conversation <$> (l1 ++ new :: l2)%list)))
      by (rewrite Hids; exact Hnd).
    assert (Hunique : forall e, In e (l1 ++ new :: l2)%list ->
                                c_id (e_conversation e) = c_id updatedConversation -> e = new).
    { intros e He Hid.
      apply (NoDup_fmap_eq (fun e => c_id (e_conversation e)) (l1 ++ new :: l2)%list).
      - rewrite <- list_fmap_compose in Hnd'. exact Hnd'.
      - exact He.
      - apply in_or_app. right. left. reflexivity.
      - exact Hid. }
    split; [rewrite sort_newest_first_perm; exact Hnd'|].
    split; [intros e He; apply list_elem_of_In in He; rewrite sort_newest_first_perm in He;
            apply list_elem_of_In in He; exact (Hunique e He)|].
    split; [apply list_elem_of_In; rewrite sort_newest_first_perm; apply list_elem_of_In;
            apply in_or_app; right; left; reflexivity|].
    split.
    + intros e Hne. rewrite <- !list_elem_of_In, sort_newest_first_perm.
      rewrite !elem_of_app, !elem_of_cons. split.
      * intros [H|[->|H]]; auto. exfalso. apply Hne. reflexivity.
      * intros [H|[->|H]]; auto. exfalso. apply Hne. exact Hold.
    + split.
      * intros _. split; [|split].
        -- rewrite (Permutation_length (sort_newest_first_perm _)), !length_app. reflexivity.
        -- apply sort_newest_first_sorted.
        -- intros t. rewrite sort_newest_first_stable. f_equal. symmetry.
           apply (insert_map_if f new l1 l2 old); [| |unfold f; apply Nat.eqb_eq; exact Hold].
           ++ intros z Hz. unfold f. apply Nat.eqb_neq. intros Hid.
              assert (z = old) as ->.
              { apply (NoDup_fmap_eq (fun e => c_id (e_conversation e)) (l1 ++ old :: l2)%list).
                - rewrite <- list_fmap_compose in Hnd. exact Hnd.
                - apply in_or_app. left. exact Hz.
                - apply in_or_app. right. left. reflexivity.
                - congruence. }
              rewrite <- list_fmap_compose in Hnd. rewrite fmap_app in Hnd.
              apply NoDup_app in Hnd as (_ & Hdisjoint & _).
              apply (Hdisjoint (c_id (e_conversation old))).
              ** apply list_elem_of_fmap. exists old. split; [reflexivity|].
                 apply list_elem_of_In. exact Hz.
              ** rewrite fmap_cons. left.
           ++ intros z Hz. unfold f. apply Nat.eqb_neq. intros Hid.
              rewrite <- list_fmap_compose in Hnd. rewrite fmap_app, fmap_cons in Hnd.
              apply NoDup_app in Hnd as (_ & _ & Hnd).
              apply NoDup_cons in Hnd as [Hnot _]. apply Hnot.
              apply list_elem_of_fmap. exists z. split; [|apply list_elem_of_In; exact Hz].
              simpl. congruence.
      * intros Hno. exfalso. apply Hno. rewrite !fmap_app, !fmap_cons, elem_of_app.
        right. rewrite Hold. left.
  - pose proof (findIndex_None f prev Hfind) as Hnone.
    assert (Hnew : c_id updatedConversation ∉ c_id <$> (e_conversation <$> prev)).
    { intros Hin. apply list_elem_of_fmap in Hin as (c & Hc & Hin).
      apply list_elem_of_fmap in Hin as (e & -> & He).
      apply list_elem_of_In in He. specialize (Hnone e He). unfold f in Hnone.
      apply Nat.eqb_neq in Hnone. congruence. }
    split; [simpl; apply NoDup_cons; split; assumption|].
    split.
    { intros e [<-|He] Hid; [reflexivity|]. specialize (Hnone e He). unfold f in Hnone.
      apply Nat.eqb_neq in Hnone. contradiction. }
    split; [left; reflexivity|].
    split.
    { intros e Hne. simpl. split; [intros [<-|H]; [|exact H] | auto].
      exfalso. apply Hne. reflexivity. }
    split; [intros Hin; contradiction | reflexivity].
Qed.

Lemma onConversationChange_list_witness :
  let prev := entry_of_view <$> getUserConversations (Authenticated 1) 1 db_two_threads in
  let row := mk_conversation 20 10 1 2 None 6000950 5 6000950 in
  NoDup (c_id <$> (e_conversation <$> prev))
  /\ c_id <$> (e_conversation <$> prev) = [40; 20]%nat
  /\ e_unread_count <$> prev = [Some 1%nat; Some 0%nat]
  /\ onConversationChange row prev
     = [mk_chat_entry (mk_conversation 40 10 1 3 None 6000000 6 6000000)
                      (Some [mk_message 31 40 3 (Text "Is it still free?") "text" (JObj [])
                                        (JObj []) 6000000])
                      (Some (mk_message 31 40 3 (Text "Is it still free?") "text" (JObj [])
                                        (JObj []) 6000000))
                      (Some 1%nat);
        mk_chat_entry row None None None]
  /\ NoDup (c_id <$> (e_conversation <$> onConversationChange row prev))
  /\ StronglySorted (fun a b => entry_time b <= entry_time a) (onConversationChange row prev).
Proof.
  cbv zeta.
  assert (Hnd : NoDup (c_id <$> (e_conversation
                                   <$> (entry_of_view
                                          <$> getUserConversations (Authenticated 1) 1
                                                db_two_threads))))
    by (apply (bool_decide_unpack _); vm_compute; exact I).
  split; [exact Hnd|]. split; [vm_compute; reflexivity|]. split; [vm_compute; reflexivity|].
  split; [vm_compute; reflexivity|].
  destruct (onConversationChange_list (mk_conversation 20 10 1 2 None 6000950 5 6000950)
              _ Hnd) as (Hnd' & _ & _ & _ & Hsorted & _).
  split; [exact Hnd'|]. apply Hsorted.
  apply (bool_decide_unpack _). vm_compute. exact I.
Defined.

(** ** [isValidSSNEmail] and the sign-in form *)

Lemma string_length_append (s t : string) :
  String.length (s ++ t) = (String.length s + String.length t)%nat.
Proof.
  induction s as [|a s IH]; [reflexivity|].
  change (S (String.length (s ++ t)) = S (String.length s + String.length t)).
  rewrite IH. reflexivity.
Qed.

Lemma substring_all (s : string) : substring 0 (String.length s) s = s.
Proof. induction s as [|a s IH]; simpl; [reflexivity | rewrite IH; reflexivity]. Qed.

Lemma substring_append_suffix (s t : string) :
  substring (String.length s) (String.length t) (s ++ t) = t.
Proof. induction s as [|a s IH]; [apply substring_all | exact IH]. Qed.

Lemma substring_split (k : nat) (s : string) :
  (k <= String.length s)%nat ->
  s = (substring 0 k s ++ substring k (String.length s - k) s)%string.
Proof.
  revert s. induction k as [|k IH]; intros s Hk.
  - rewrite Nat.sub_0_r, substring_all. destruct s; reflexivity.
  - destruct s as [|a s]; simpl in Hk; [lia|].
    transitivity (String a (substring 0 k s
                            ++ substring k (String.length s - k) s))%string;
      [f_equal; apply IH; lia | reflexivity].
Qed.

Lemma endsWith_iff (s suffix : string) :
  endsWith s suffix = true <-> exists p, s = (p ++ suffix)%string.
Proof.
  unfold endsWith. split.
  - intros H. apply andb_true_iff in H as [Hle Heq].
    apply Nat.leb_le in Hle. apply String.eqb_eq in Heq.
    exists (substring 0 (String.length s - String.length suffix) s).
    pose proof (substring_split (String.length s - String.length suffix) s
                  ltac:(lia)) as Hsplit.
    replace (String.length s - (String.length s - String.length suffix))%nat
      with (String.length suffix) in Hsplit by lia.
    rewrite Heq in Hsplit. exact Hsplit.
  - intros [p ->]. rewrite string_length_append.
    replace (String.length p + String.length suffix - String.length suffix)%nat
      with (String.length p) by lia.
    rewrite substring_append_suffix, String.eqb_refl, andb_true_r.
    apply Nat.leb_le. lia.
Qed.

Lemma toLowerCase_append (s t : string) :
  toLowerCase (s ++ t) = (toLowerCase s ++ toLowerCase t)%string.
Proof.
  induction s as [|a s IH]; [reflexivity|].
  change (String (lower_ascii a) (toLowerCase (s ++ t))
          = String (lower_ascii a) (toLowerCase s ++ toLowerCase t))%string.
  rewrite IH. reflexivity.
Qed.

Lemma lower_ascii_idempotent (a : ascii) : lower_ascii (lower_ascii a) = lower_ascii a.
Proof. destruct a as [[] [] [] [] [] [] [] []]; reflexivity. Qed.

Lemma toLowerCase_idempotent (s : string) : toLowerCase (toLowerCase s) = toLowerCase s.
Proof.
  induction s as [|a s IH]; simpl; [reflexivity|].
  rewrite lower_ascii_idempotent, IH. reflexivity.
Qed.

(** X20.  [isValidSSNEmail] accepts an address exactly when, in lower
    case, it is something followed by "@ssn.edu.in": the letters' case
    does not matter, and any text may stand before the suffix, the empty
    text and a text with another "@" included.  [AuthForm] sends at most
    one request to the authentication service, and none for an address
    that is not accepted. *)
Theorem isValidSSNEmail_suffix (address : string) (isLogin : bool) (formData : auth_form)
    (auth : auth_request -> option string) :
  (isValidSSNEmail address = true
   <-> exists p, toLowerCase address = (p ++ "@ssn.edu.in")%string)
  /\ isValidSSNEmail (toLowerCase address) = isValidSSNEmail address
  /\ (forall p, isValidSSNEmail (p ++ "@ssn.edu.in") = true
                /\ isValidSSNEmail (p ++ "@SSN.EDU.IN") = true)
  /\ (length (fst (AuthForm_handleSubmit isLogin formData auth)) <= 1)%nat
  /\ (forall r, In r (fst (AuthForm_handleSubmit isLogin formData auth)) ->
                request_email r = email formData
                /\ isValidSSNEmail (request_email r) = true).
Proof.
  split; [apply endsWith_iff|].
  split; [unfold isValidSSNEmail; rewrite toLowerCase_idempotent; reflexivity|].
  split.
  { intros p. split; apply endsWith_iff; exists (toLowerCase p);
      apply toLowerCase_append. }
  unfold AuthForm_handleSubmit.
  destruct (isValidSSNEmail (email formData)) eqn:Hvalid; simpl;
    [|split; [lia | intros r []]].
  destruct isLogin; destruct (auth _); simpl; (split; [lia|]);
    intros r [<-|[]]; simpl; auto.
Qed.

(** ** [handleDatabaseError] and [fetchItems] *)

(** X21.  [fetchItems] shows the "Database schema not set up" toast
    only when the request itself throws an error that
    [handleDatabaseError] classes as a schema error.  A schema error that
    the query answers with is swallowed: the list becomes empty and no
    toast is shown; any other error of the query shows "Error loading
    items" and leaves the list as it was; an answer without an error
    shows no toast. *)
Theorem fetchItems_toasts (q : query_outcome) :
  (snd (fetchItems q)
   = Some "Database schema not set up. Please create the required tables in Supabase." ->
   exists error, q = thrown error /\ isSchemaError (handleDatabaseError error) = true)
  /\ (forall data error, q = answered data (Some error) ->
        if isSchemaError (handleDatabaseError (Some error))
        then fetchItems q = (Some [], None)
        else fetchItems q = (None, Some "Error loading items"))
  /\ (forall data, q = answered data None ->
        fetchItems q = (Some (match data with Some items => items | None => [] end), None)).
Proof.
  split; [|split].
  - destruct q as [data [error|]|error]; simpl.
    + destruct (isSchemaError (handleDatabaseError (Some error))); simpl; discriminate.
    + discriminate.
    + destruct (isSchemaError (handleDatabaseError error)) eqn:H; simpl; [eauto|discriminate].
  - intros data error ->. simpl.
    destruct (isSchemaError (handleDatabaseError (Some error))); reflexivity.
  - intros data ->. reflexivity.
Qed.
